(** * Length-aware batch scheduling of sequence_models/data.py

    A shallow embedding of the two samplers of [sequence_models/data.py]:
    [SortishSampler] (bucketed, epoch-seeded shuffling of a length-sorted
    index order, sharded over replicas) and [ApproxBatchSampler] (greedy
    packing of an index stream under a token budget).

    Python integers are [Z]; dataset positions produced by [np.argsort]
    are [nat]; Python lists and one-dimensional arrays are [list]s.
    Exceptions are values of [exn]. The functions taken from numpy
    ([np.argsort], [np.random.seed], [np.random.shuffle]) are not code of
    this repository: they are the fields of the interface [Numpy], known
    by their documented contract only. *)

From Stdlib Require Import Ascii.
From Stdlib Require Import ZArith List Bool Lia Permutation Sorted.
Import ListNotations.
Open Scope Z_scope.

(** ** Python values and primitives *)

Inductive exn : Type :=
| ZeroDivisionError
| AssertionError
| ValueError
| IndexError.

(** [len(l)] *)
Definition len {A} (l : list A) : Z := Z.of_nat (length l).

(** [range(n)], as positions *)
Definition range (n : Z) : list nat := seq 0 (Z.to_nat n).

(** [l[i]] on a list or array: negative subscripts count from the end,
    anything outside [-len(l), len(l)) raises [IndexError]. *)
Definition getitem {A} (l : list A) (i : Z) : option A :=
  if (0 <=? i) && (i <? len l) then nth_error l (Z.to_nat i)
  else if (- len l <=? i) && (i <? 0) then nth_error l (Z.to_nat (len l + i))
  else None.

(** One bound of a slice, clipped as CPython's [PySlice_AdjustIndices]
    does for a sequence of length [n]. *)
Definition adjust_index (n i step : Z) : Z :=
  if i <? 0 then
    (if i + n <? 0 then (if step <? 0 then -1 else 0) else i + n)
  else if n <=? i then (if step <? 0 then n - 1 else n)
  else i.

(** Number of elements selected by the clipped bounds. *)
Definition slice_length (start stop step : Z) : Z :=
  if step <? 0 then
    (if stop <? start then (start - stop - 1) / (- step) + 1 else 0)
  else
    (if start <? stop then (stop - start - 1) / step + 1 else 0).

(** The element at position [p], when there is one. *)
Definition at_position {A} (l : list A) (p : Z) : list A :=
  if p <? 0 then [] else
  match nth_error l (Z.to_nat p) with
  | Some x => [x]
  | None => []
  end.

(** [l[start:stop:step]]; a zero step raises [ValueError]. *)
Definition py_slice {A} (l : list A) (start stop step : Z) : option (list A) :=
  if step =? 0 then None
  else
    let s := adjust_index (len l) start step in
    let e := adjust_index (len l) stop step in
    Some (flat_map (fun k => at_position l (s + Z.of_nat k * step))
                   (range (slice_length s e step))).

(** [l[start:stop]] *)
Definition py_slice2 {A} (l : list A) (start stop : Z) : list A :=
  let s := adjust_index (len l) start 1 in
  let e := adjust_index (len l) stop 1 in
  flat_map (fun k => at_position l (s + Z.of_nat k)) (range (slice_length s e 1)).

(** [max(l)] of a sequence; the empty sequence raises [ValueError]. *)
Definition py_max (l : list Z) : option Z :=
  match l with
  | [] => None
  | x :: r => Some (fold_left Z.max r x)
  end.

(** [int(math.ceil(a / b))] for integers [a], [b] with [b <> 0]. The
    source divides in floating point; the quotient of two integers below
    2^53 is rounded to an integer only when it is one, so the result is
    the exact ceiling. *)
Definition ceil_div (a b : Z) : Z := - ((- a) / b).

(** ** ApproxBatchSampler *)

Module ApproxBatchSampler.

Record t : Type := mk {
  longest_token : Z;
  max_tokens : Z;
  max_batch : Z;
  sampler : list Z;
  sample_lengths : list Z
}.

Definition __init__ (sampler : list Z) (max_tokens max_batch : Z)
           (sample_lengths : list Z) : t :=
  {| longest_token := 0;
     max_tokens := max_tokens;
     max_batch := max_batch;
     sampler := sampler;
     sample_lengths := sample_lengths |}.

(** How the generator's frame ends: the [for] loop ran out of indices
    with the locals [batch] and [length] as given, or a subscript
    raised. *)
Inductive frame_end : Type :=
| Exhausted (batch : list Z) (length : Z)
| Raised (e : exn).

(** The body of the [for] loop of [__iter__], from the locals [batch]
    and [length], over the indices still to come from the sampler. The
    first component lists the batches yielded, in order. *)
Fixpoint loop (self : t) (indices : list Z) (batch : list Z) (length : Z)
  : list (list Z) * frame_end :=
  match indices with
  | [] => ([], Exhausted batch length)
  | idx :: rest =>
    match getitem (sample_lengths self) idx with
    | None => ([], Raised IndexError)
    | Some this_length =>
      if (len batch + 1) * Z.max length this_length <=? max_tokens self then
        let batch := batch ++ [idx] in
        let length := Z.max length this_length in
        if len batch =? max_batch self then
          let (ys, fin) := loop self rest [] 0 in (batch :: ys, fin)
        else loop self rest batch length
      else
        let (ys, fin) := loop self rest [idx] this_length in (batch :: ys, fin)
    end
  end.

(** What a consumer of the generator observes at its end. *)
Inductive completion : Type :=
| StopIteration
| Raise (e : exn).

Definition __iter__ (self : t) : list (list Z) * completion :=
  let (ys, fin) := loop self (sampler self) [] 0 in
  (ys, match fin with
       | Exhausted _ _ => StopIteration
       | Raised e => Raise e
       end).

(** The lengths of the members of a batch, looked up as the loop does. *)
Fixpoint lengths_of (sample_lengths : list Z) (batch : list Z) : option (list Z) :=
  match batch with
  | [] => Some []
  | idx :: rest =>
    match getitem sample_lengths idx, lengths_of sample_lengths rest with
    | Some l, Some ls => Some (l :: ls)
    | _, _ => None
    end
  end.

(** What the loop maintains about its locals: every member of [batch]
    has a length, none above [length], and a batch of two or more fits
    the budget at [length]. *)
Definition fits (self : t) (batch : list Z) (length : Z) : Prop :=
  exists ls,
    lengths_of (sample_lengths self) batch = Some ls /\
    Forall (fun l => l <= length) ls /\
    (1 < len batch -> len batch * length <= max_tokens self).

(** The token bound of one batch. *)
Definition within_budget (self : t) (B : list Z) : Prop :=
  exists ls,
    lengths_of (sample_lengths self) B = Some ls /\
    (1 < len B ->
     exists m, py_max ls = Some m /\ len B * m <= max_tokens self) /\
    (forall m, py_max ls = Some m -> max_tokens self < len B * m ->
               exists idx, B = [idx] /\ getitem (sample_lengths self) idx = Some m).

(** Scenario B of the specification: lengths [2, 3, 10, 1], a budget of
    6 tokens, at most 3 indices per batch, indices in dataset order. *)
Definition scenario_B : t := __init__ [0; 1; 2; 3] 6 3 [2; 3; 10; 1].

End ApproxBatchSampler.

(** ** The numpy interface

    [np.random.seed(e)] resets the state of numpy's global generator to a
    state fixed by [e], or raises [ValueError] for a seed it does not
    accept ([None]). [np.random.shuffle(x)] rearranges the sequence [x]
    in place, drawing from the global generator. [np.argsort(a)] with its
    default [kind] returns the positions of [a] in an order that sorts
    [a]; which of two equal keys comes first is not part of its
    contract. *)

Definition key (a : list Z) (i : nat) : Z := nth i a 0.

Class Numpy : Type := {
  RandomState : Type;
  seed : Z -> option RandomState;
  shuffle : forall A : Type, RandomState -> list A -> list A * RandomState;
  argsort : list Z -> list nat
}.

Arguments shuffle {Numpy} {A} g x.

(** What the callers below rely on: a shuffle rearranges its argument,
    and [argsort] returns the positions [0 .. len(a) - 1] in an order
    along which the keys never decrease. *)
Class NumpyContract (np : Numpy) : Prop := {
  shuffle_Permutation :
    forall (A : Type) (g : RandomState) (x : list A),
      Permutation (fst (shuffle g x)) x;
  argsort_Permutation :
    forall a : list Z, Permutation (argsort a) (seq 0 (length a));
  argsort_sorted :
    forall a : list Z,
      StronglySorted (fun i j => key a i <= key a j) (argsort a)
}.

Arguments shuffle_Permutation {np} {_} {A} g x.

(** ** SortishSampler *)

Module SortishSampler.

Record t : Type := mk {
  data : list (list nat);
  num_replicas : Z;
  num_samples : Z;
  bucket_size : Z;
  rank : Z;
  epoch : Z;
  total_size : Z
}.

Definition set_epoch (self : t) (epoch : Z) : t :=
  {| data := data self;
     num_replicas := num_replicas self;
     num_samples := num_samples self;
     bucket_size := bucket_size self;
     rank := rank self;
     epoch := epoch;
     total_size := total_size self |}.

(** The assignment to [self.data] made by the in-place shuffles. *)
Definition set_data (self : t) (data : list (list nat)) : t :=
  {| data := data;
     num_replicas := num_replicas self;
     num_samples := num_samples self;
     bucket_size := bucket_size self;
     rank := rank self;
     epoch := epoch self;
     total_size := total_size self |}.

Definition __len__ (self : t) : Z := num_samples self.

(** The list comprehension of [__init__]: the slices
    [order[i * bucket_size : i * bucket_size + bucket_size]] for
    [i] in [range(n_buckets)]. *)
Definition buckets_of (order : list nat) (bucket_size n_buckets : Z)
  : list (list nat) :=
  map (fun i => py_slice2 order (Z.of_nat i * bucket_size)
                          (Z.of_nat i * bucket_size + bucket_size))
      (range n_buckets).

Section WithNumpy.
Context {np : Numpy}.

(** Both divisions raise [ZeroDivisionError] on a zero divisor; that
    by [num_replicas] is evaluated first. *)
Definition __init__ (sequence_lengths : list Z)
           (bucket_size num_replicas rank : Z) : exn + t :=
  let order := argsort sequence_lengths in
  if num_replicas =? 0 then inl ZeroDivisionError
  else
    let num_samples := ceil_div (len order) num_replicas in
    if bucket_size =? 0 then inl ZeroDivisionError
    else
      let n_buckets := ceil_div (len order) bucket_size in
      inr {| data := buckets_of order bucket_size n_buckets;
             num_replicas := num_replicas;
             num_samples := num_samples;
             bucket_size := bucket_size;
             rank := rank;
             epoch := 0;
             total_size := num_samples * num_replicas |}.

(** [for bucket in self.data: np.random.shuffle(bucket)] *)
Fixpoint shuffle_each (g : RandomState) (buckets : list (list nat))
  : list (list nat) * RandomState :=
  match buckets with
  | [] => ([], g)
  | bucket :: rest =>
    let (bucket', g1) := shuffle g bucket in
    let (rest', g2) := shuffle_each g1 rest in
    (bucket' :: rest', g2)
  end.

(** The two shuffling steps of [__iter__] from the generator state
    [g]: every bucket, then the list of buckets. *)
Definition shuffle_data (g : RandomState) (buckets : list (list nat))
  : list (list nat) * RandomState :=
  let (buckets', g1) := shuffle_each g buckets in
  shuffle g1 buckets'.

(** [indices = [item for sublist in self.data for item in sublist]] *)
Definition flatten (buckets : list (list nat)) : list nat := concat buckets.

(** [indices += indices[:(self.total_size - len(indices))]] *)
Definition pad (self : t) (indices : list nat) : list nat :=
  indices ++ py_slice2 indices 0 (total_size self - len indices).

(** The part of [__iter__] after the shuffles. *)
Definition subsample (self : t) (indices : list nat) : exn + list nat :=
  let indices := pad self indices in
  if len indices =? total_size self then
    match py_slice indices (rank self) (total_size self) (num_replicas self) with
    | None => inl ValueError
    | Some indices =>
      if len indices =? num_samples self then inr indices
      else inl AssertionError
    end
  else inl AssertionError.

(** [__iter__] on the object [self] with the global generator in
    state [g]: what the call returns or raises, the object afterwards
    (the buckets are shuffled in place, so [self.data] keeps the new
    arrangement, also when an assertion fails), and the generator
    afterwards. *)
Definition __iter__ (self : t) (g : RandomState)
  : (exn + list nat) * t * RandomState :=
  match seed (epoch self) with
  | None => (inl ValueError, self, g)
  | Some g0 =>
    let (buckets, g1) := shuffle_data g0 (data self) in
    (subsample self (flatten buckets), set_data self buckets, g1)
  end.

(** The calls a client can make on a sampler, and the objects they
    lead to from a constructed one. *)
Inductive reachable (self0 : t) : t -> Prop :=
| reach_init : reachable self0 self0
| reach_set_epoch (self : t) (e : Z) :
    reachable self0 self -> reachable self0 (set_epoch self e)
| reach_iter (self : t) (g : RandomState) :
    reachable self0 self -> reachable self0 (snd (fst (__iter__ self g))).

End WithNumpy.

(** Scenario A of the specification: lengths [5, 1, 2, 8, 3] in one
    bucket of five, on a single replica; and the same lengths in buckets
    of two. *)
Definition scenario_A : t :=
  {| data := [[1; 2; 4; 0; 3]%nat];
     num_replicas := 1; num_samples := 5; bucket_size := 5;
     rank := 0; epoch := 0; total_size := 5 |}.

Definition scenario_A_pairs : t :=
  {| data := [[1; 2]; [4; 0]; [3]]%nat;
     num_replicas := 1; num_samples := 5; bucket_size := 2;
     rank := 0; epoch := 0; total_size := 5 |}.

End SortishSampler.

(** ** Predicates of the statements *)


(** The stored buckets [current] are the buckets [original], each with
    its contents rearranged, held in a rearranged order. *)
Definition same_buckets (current original : list (list nat)) : Prop :=
  exists l, Permutation current l /\ Forall2 (@Permutation nat) l original.



(** ** Two implementations of the numpy interface

    Both seed a linear congruential generator with the epoch (accepting
    the seeds numpy accepts, 0 to 2^32 - 1) and shuffle by inserting
    each element at a drawn position. They differ in [argsort] only:
    an insertion sort that keeps equal keys in index order, and one that
    reverses them. Either meets [NumpyContract]. *)

Fixpoint insert_by (leb : nat -> nat -> bool) (i : nat) (l : list nat) : list nat :=
  match l with
  | [] => [i]
  | j :: r => if leb i j then i :: l else j :: insert_by leb i r
  end.

Definition sort_by (leb : nat -> nat -> bool) (l : list nat) : list nat :=
  fold_right (insert_by leb) [] l.

Definition argsort_stable (a : list Z) : list nat :=
  sort_by (fun i j => key a i <=? key a j) (seq 0 (length a)).

Definition argsort_reversed_ties (a : list Z) : list nat :=
  sort_by (fun i j => key a i <? key a j) (seq 0 (length a)).

Definition lcg (g : Z) : Z := (1103515245 * g + 12345) mod 2 ^ 31.

Definition lcg_seed (e : Z) : option Z :=
  if (0 <=? e) && (e <? 2 ^ 32) then Some e else None.

Definition insert_at {A} (k : nat) (a : A) (l : list A) : list A :=
  firstn k l ++ a :: skipn k l.

Fixpoint lcg_shuffle (A : Type) (g : Z) (x : list A) : list A * Z :=
  match x with
  | [] => ([], g)
  | a :: r =>
    let (r', g1) := lcg_shuffle A g r in
    let g2 := lcg g1 in
    (insert_at (Z.to_nat (g2 mod (len r' + 1))) a r', g2)
  end.

Definition numpy_model : Numpy :=
  {| RandomState := Z;
     seed := lcg_seed;
     shuffle := lcg_shuffle;
     argsort := argsort_stable |}.

Definition numpy_reversed_ties : Numpy :=
  {| RandomState := Z;
     seed := lcg_seed;
     shuffle := lcg_shuffle;
     argsort := argsort_reversed_ties |}.

(** ** Further definitions

    Predicates and models for the properties beyond the claims. *)

(** The locals when no length exceeds the budget: [batch] within the
    budget at [length], and [length] back at 0 whenever [batch] is
    empty. *)
Definition fits_all (self : ApproxBatchSampler.t) (batch : list Z) (length : Z) : Prop :=
  exists ls,
    ApproxBatchSampler.lengths_of (ApproxBatchSampler.sample_lengths self) batch = Some ls /\
    Forall (fun l => l <= length) ls /\
    (batch <> [] -> len batch * length <= ApproxBatchSampler.max_tokens self) /\
    (batch = [] -> length = 0).

Definition full_and_within (self : ApproxBatchSampler.t) (B : list Z) : Prop :=
  B <> [] /\
  exists ls m,
    ApproxBatchSampler.lengths_of (ApproxBatchSampler.sample_lengths self) B = Some ls /\
    py_max ls = Some m /\
    len B * m <= ApproxBatchSampler.max_tokens self.

(** A batch sampler none of whose sequences is longer than the budget. *)
Definition short_lengths : ApproxBatchSampler.t :=
  ApproxBatchSampler.__init__ [0; 1; 2; 3] 6 3 [2; 3; 1; 1].

(** Scenario C of the specification, as [SortishSampler.__init__]
    builds it for rank 1: ten sequences, buckets of three, three
    replicas. *)
Definition scenario_C_lengths : list Z := [5; 1; 2; 8; 3; 7; 7; 1; 0; 4].

Definition scenario_C : SortishSampler.t :=
  {| SortishSampler.data := [[8; 1; 7]; [2; 4; 9]; [0; 5; 6]; [3]]%nat;
     SortishSampler.num_replicas := 3;
     SortishSampler.num_samples := 4;
     SortishSampler.bucket_size := 3;
     SortishSampler.rank := 1;
     SortishSampler.epoch := 0;
     SortishSampler.total_size := 12 |}.

(** The sampler of an empty dataset, for rank 1 of two replicas. *)
Definition empty_sampler : SortishSampler.t :=
  {| SortishSampler.data := [];
     SortishSampler.num_replicas := 2;
     SortishSampler.num_samples := 0;
     SortishSampler.bucket_size := 3;
     SortishSampler.rank := 1;
     SortishSampler.epoch := 0;
     SortishSampler.total_size := 0 |}.

(** *** Tensors and [_pad]

    A one-dimensional integer tensor is the list of its entries, a
    two-dimensional one the list of its rows. Besides Python's own
    exceptions the code below can meet those of its libraries. *)

Inductive error : Type :=
| Builtin (e : exn)
| RuntimeError
| OSError
| TypeError
| LibraryError.

(** [enumerate(l)] *)
Definition enumerate {A} (l : list A) : list (nat * A) :=
  combine (seq 0 (length l)) l.

(** [output[row, :len(t)] = t]: torch raises [IndexError] for a row
    that is not there and [RuntimeError] when [t] does not fit the
    slice. *)
Definition assign_prefix (output : list (list Z)) (row : nat) (t : list Z)
  : error + list (list Z) :=
  match nth_error output row with
  | None => inl (Builtin IndexError)
  | Some r =>
    if (length t <=? length r)%nat then
      inr (firstn row output ++ (t ++ skipn (length t) r) :: skipn (S row) output)
    else inl RuntimeError
  end.

(** The [for] loop of [_pad]. *)
Fixpoint fill_rows (output : list (list Z)) (rows : list (nat * list Z))
  : error + list (list Z) :=
  match rows with
  | [] => inr output
  | (row, t) :: rest =>
    match assign_prefix output row t with
    | inl e => inl e
    | inr output => fill_rows output rest
    end
  end.

(** [torch.zeros((rows, columns)) + value] *)
Definition full (rows columns : nat) (value : Z) : list (list Z) :=
  repeat (repeat (0 + value) columns) rows.

Definition _pad (tokenized : list (list Z)) (value : Z) : error + list (list Z) :=
  let batch_size := length tokenized in
  match py_max (map len tokenized) with
  | None => inl (Builtin ValueError)
  | Some max_len =>
    let output := full batch_size (Z.to_nat max_len) value in
    fill_rows output (enumerate tokenized)
  end.

(** A row brought to [width] entries with [value]. *)
Definition padded (width : nat) (value : Z) (t : list Z) : list Z :=
  t ++ repeat value (width - length t).

(** *** Text files and [FlatDataset]

    A string is the list of its characters. A file is the list of its
    bytes; it is taken to be ASCII text, one byte for each character, so
    that the offsets given to [seek] count characters. *)

Definition newline : ascii := "010"%char.
Definition carriage_return : ascii := "013"%char.
Definition comma : ascii := ","%char.

(** A file opened with [open(path, 'r')] reads in universal-newlines
    mode: a line ends at ["\n"], at ["\r"] or at ["\r\n"], and
    [readline] hands each of them over as ["\n"]. *)
Definition is_terminator (c : ascii) : bool :=
  Ascii.eqb c newline || Ascii.eqb c carriage_return.

(** [f.readline()] with [rest] the bytes from the current position to
    the end of the file: the line with its newline, or what is left of
    the file when no line end follows. *)
Fixpoint readline (rest : list ascii) : list ascii :=
  match rest with
  | [] => []
  | c :: rest' => if is_terminator c then [newline] else c :: readline rest'
  end.

(** [s.split(sep)] for a separator of one character. *)
Fixpoint split (sep : ascii) (s : list ascii) : list (list ascii) :=
  match s with
  | [] => [[]]
  | c :: r =>
    if Ascii.eqb c sep then [] :: split sep r
    else match split sep r with
         | field :: fields => (c :: field) :: fields
         | [] => [[c]]
         end
  end.

(** [sep.join(fields)] *)
Fixpoint join (sep : ascii) (fields : list (list ascii)) : list ascii :=
  match fields with
  | [] => []
  | [field] => field
  | field :: rest => field ++ sep :: join sep rest
  end.

(** [[line[i] for i in cols]] *)
Fixpoint pick {A} (line : list A) (cols : list Z) : error + list A :=
  match cols with
  | [] => inr []
  | i :: rest =>
    match getitem line i with
    | None => inl (Builtin IndexError)
    | Some x =>
      match pick line rest with
      | inl e => inl e
      | inr xs => inr (x :: xs)
      end
    end
  end.

Module FlatDataset.

Record t : Type := mk {
  fpath : list ascii;
  offsets : list Z;
  cols : list Z
}.

Definition __init__ (fpath : list ascii) (offsets cols : list Z) : t :=
  {| fpath := fpath; offsets := offsets; cols := cols |}.

Definition __len__ (self : t) : Z := len (offsets self).

(** [open] gives the bytes of the file at a path, or [None] when
    opening it raises [OSError] (no such file, for one). The subscript
    [self.offsets[idx]] is evaluated once the file is open; [seek]
    raises [ValueError] for a negative position and accepts one beyond
    the end of the file. *)
Definition __getitem__ (open : list ascii -> option (list ascii))
           (self : t) (idx : Z) : error + list (list ascii) :=
  match open (fpath self) with
  | None => inl OSError
  | Some bytes =>
    match getitem (offsets self) idx with
    | None => inl (Builtin IndexError)
    | Some offset =>
      if offset <? 0 then inl (Builtin ValueError)
      else
        let line := py_slice2 (readline (skipn (Z.to_nat offset) bytes)) 0 (-1) in
        let line := split comma line in
        pick line (cols self)
    end
  end.

End FlatDataset.

(** A character that is neither a comma nor the end of a line. *)
Definition plain (c : ascii) : Prop :=
  c <> comma /\ is_terminator c = false.

(** A file of two rows, [a,bc] and [d,e], the second with no line end,
    and the dataset of its second column. *)
Definition two_rows : list ascii :=
  ["a"; ","; "b"; "c"; newline; "d"; ","; "e"]%char.

Definition open_two_rows (path : list ascii) : option (list ascii) :=
  Some two_rows.

Definition second_column : FlatDataset.t :=
  FlatDataset.__init__ ["f"]%char [0; 5] [1].

(** *** Collaters

    The collaters of [data.py] call code that is not part of these
    sources: the class [Tokenizer] of [sequence_models.utils], the
    constants [PAD], [START] and [STOP] of [sequence_models.constants],
    and [torch.tensor] on the columns after the first. They are taken as
    given: a tokenizer is any object with an [alphabet] and a
    [tokenize] method, whose result becomes the entries of the tensor.
    An item of a batch is a sequence followed by its outputs. *)

Record Tokenizer : Type := {
  alphabet : list ascii;
  tokenize : list ascii -> error + list Z
}.

Record item (V : Type) : Type := {
  sequence : list ascii;
  outputs : list V
}.

Arguments sequence {V} _.
Arguments outputs {V} _.

Definition bind {A B} (x : error + A) (f : A -> error + B) : error + B :=
  match x with
  | inl e => inl e
  | inr a => f a
  end.

Notation "x <- c ;; k" := (bind c (fun x => k))
  (at level 61, c at next level, right associativity).

(** A list comprehension whose body can raise: the first exception
    ends it. *)
Fixpoint map_err {A B} (f : A -> error + B) (l : list A) : error + list B :=
  match l with
  | [] => inr []
  | a :: r => b <- f a;; bs <- map_err f r;; inr (b :: bs)
  end.

Fixpoint starts_with (s sub : list ascii) : bool :=
  match sub, s with
  | [], _ => true
  | _ :: _, [] => false
  | x :: sub', c :: s' => Ascii.eqb x c && starts_with s' sub'
  end.

(** [s.index(sub)]: the first position where [sub] occurs, [None] for
    the [ValueError] when it does not. *)
Fixpoint str_index (s sub : list ascii) {struct s} : option Z :=
  if starts_with s sub then Some 0
  else match s with
       | [] => None
       | _ :: s' => option_map Z.succ (str_index s' sub)
       end.

(** The first elements and the rests of rows none of which is empty. *)
Fixpoint uncons_all {A} (rows : list (list A)) : option (list A * list (list A)) :=
  match rows with
  | [] => Some ([], [])
  | [] :: _ => None
  | (x :: r) :: rest =>
    match uncons_all rest with
    | None => None
    | Some (heads, tails) => Some (x :: heads, r :: tails)
    end
  end.

Fixpoint zip_rows {A} (columns : nat) (rows : list (list A)) : list (list A) :=
  match columns with
  | O => []
  | S columns =>
    match uncons_all rows with
    | None => []
    | Some (heads, tails) => heads :: zip_rows columns tails
    end
  end.

(** [zip] of the unpacked rows: their columns, as many as the shortest
    row has elements. *)
Definition zip_star {A} (rows : list (list A)) : list (list A) :=
  match rows with
  | [] => []
  | row :: _ => zip_rows (length row) rows
  end.

(** [torch.stack(tensors)] of one-dimensional tensors: [RuntimeError]
    for an empty list and for tensors of different sizes. *)
Definition stack (tensors : list (list Z)) : error + list (list Z) :=
  match tensors with
  | [] => inl RuntimeError
  | t :: rest =>
    if forallb (fun t' => (length t' =? length t)%nat) rest then inr tensors
    else inl RuntimeError
  end.

(** [alphabet.index(PAD)] *)
Definition pad_index (tokenizer : Tokenizer) (PAD : list ascii) : error + Z :=
  match str_index (alphabet tokenizer) PAD with
  | None => inl (Builtin ValueError)
  | Some i => inr i
  end.

Module SimpleCollater.

Record t : Type := mk {
  pad : bool;
  tokenizer : Tokenizer
}.

Section WithLibraries.
Context {V T : Type}.
Variable Tokenizer_new : list ascii -> Tokenizer.
Variable PAD : list ascii.
Variable tensor : list V -> error + T.

Definition __init__ (alphabet : list ascii) (pad : bool) : t :=
  {| pad := pad; tokenizer := Tokenizer_new alphabet |}.

(** The tuple [data] of the zipped items is empty for an empty batch, and
    [data[0]] then raises [IndexError]. The columns after the first go
    through [torch.tensor] when the result list is built. *)
Definition __call__ (self : t) (batch : list (item V))
  : error + (list (list Z) * list T) :=
  match batch with
  | [] => inl (Builtin IndexError)
  | _ :: _ =>
    let sequences := map sequence batch in
    sequences <- map_err (tokenize (tokenizer self)) sequences;;
    sequences <- (if pad self then
                    (pad_idx <- pad_index (tokenizer self) PAD;;
                     _pad sequences pad_idx)
                  else stack sequences);;
    data <- map_err tensor (zip_star (map outputs batch));;
    inr (sequences, data)
  end.

End WithLibraries.

End SimpleCollater.

Module LMCollater.

Record t : Type := mk {
  pad : bool;
  tokenizer : Tokenizer;
  backwards : bool
}.

Section WithLibraries.
Context {V T : Type}.
Variable Tokenizer_new : list ascii -> Tokenizer.
Variables PAD START STOP : list ascii.
Variable tensor : list V -> error + T.

Definition __init__ (alphabet : list ascii) (pad backwards : bool) : t :=
  {| pad := SimpleCollater.pad (SimpleCollater.__init__ Tokenizer_new alphabet pad);
     tokenizer :=
       SimpleCollater.tokenizer (SimpleCollater.__init__ Tokenizer_new alphabet pad);
     backwards := backwards |}.

(** The strings tokenized for [src] and for [tgt]. *)
Definition sources (self : t) (sequences : list (list ascii)) : list (list ascii) :=
  if backwards self then map (fun s => STOP ++ rev s) sequences
  else map (fun s => START ++ s) sequences.

Definition targets (self : t) (sequences : list (list ascii)) : list (list ascii) :=
  if backwards self then map (fun s => rev s ++ START) sequences
  else map (fun s => s ++ STOP) sequences.

(** [torch.ones_like(t)] *)
Definition ones_like (t : list Z) : list Z := repeat 1 (length t).

Definition __call__ (self : t) (batch : list (item V))
  : error + (list (list Z) * list (list Z) * list (list Z) * list T) :=
  match batch with
  | [] => inl (Builtin IndexError)
  | _ :: _ =>
    let sequences := map sequence batch in
    let src := sources self sequences in
    let tgt := targets self sequences in
    src <- map_err (tokenize (tokenizer self)) src;;
    tgt <- map_err (tokenize (tokenizer self)) tgt;;
    let mask := map ones_like tgt in
    pad_idx <- pad_index (tokenizer self) PAD;;
    src <- _pad src pad_idx;;
    tgt <- _pad tgt pad_idx;;
    mask <- _pad mask 0;;
    data <- map_err tensor (zip_star (map outputs batch));;
    inr (src, tgt, mask, data)
  end.

End WithLibraries.

End LMCollater.

(** A tokenizer that looks each character up in its alphabet, and the
    constants and items of an example. *)
Definition lookup_tokenizer (alphabet : list ascii) : Tokenizer :=
  {| alphabet := alphabet;
     tokenize := map_err (fun c => match str_index alphabet [c] with
                                   | Some i => inr i
                                   | None => inl (Builtin ValueError)
                                   end) |}.

Definition example_alphabet : list ascii := ["A"; "C"; "G"; "-"; "@"; "*"]%char.

Definition example_batch : list (item Z) :=
  [ {| sequence := ["A"; "C"; "G"]%char; outputs := [1; 2] |};
    {| sequence := ["G"]%char; outputs := [3; 4] |} ].

Definition example_tensor (column : list Z) : error + list Z := inr column.

Definition example_tok (c : ascii) : error + Z :=
  match str_index example_alphabet [c] with
  | Some i => inr i
  | None => inl (Builtin ValueError)
  end.

Definition example_lm : LMCollater.t :=
  LMCollater.__init__ lookup_tokenizer example_alphabet true false.

Definition equal_length_batch : list (item Z) :=
  [ {| sequence := ["A"; "C"; "G"]%char; outputs := [1; 2] |};
    {| sequence := ["G"; "C"; "A"]%char; outputs := [3; 4] |} ].

(** *** UniRefDataset

    [__getitem__] reads the consensus sequence of an index and crops it
    to [max_len] at a position drawn with [np.random.choice]. With
    [structure] set it goes on to load and crop distance and angle
    tensors; that part (floating point, [np.load], [bins_to_vals] of
    [sequence_models.gnn]) is taken as given, as a function
    [load_structure] of what it reads that can raise and draws from
    the generator. The fields [split], [pdb], [n_digits] and [p_drop]
    are used by that part only. *)

Definition consensus_fasta : list ascii :=
  ["c"; "o"; "n"; "s"; "e"; "n"; "s"; "u"; "s"; "."; "f"; "a"; "s"; "t"; "a"]%char.

Module UniRefDataset.

Record t : Type := mk {
  data_dir : list ascii;
  structure : bool;
  indices : list Z;
  offsets : list Z;
  max_len : Z
}.

Definition __len__ (self : t) : Z := len (indices self).

Section WithLibraries.
Context {G S : Type}.
(** [open(path)]: the bytes of the file, if it can be opened. *)
Variable open : list ascii -> option (list ascii).
(** [np.random.choice(n)] for an integer [n]. *)
Variable choice : G -> Z -> Z * G.
Variable load_structure : t -> Z -> list ascii -> Z -> Z -> G -> (error + S) * G.

Definition __getitem__ (self : t) (idx : Z) (g : G)
  : (error + (list ascii * option S)) * G :=
  match getitem (indices self) idx with
  | None => (inl (Builtin IndexError), g)
  | Some idx =>
    match getitem (offsets self) idx with
    | None => (inl (Builtin IndexError), g)
    | Some offset =>
      match open (data_dir self ++ consensus_fasta) with
      | None => (inl OSError, g)
      | Some bytes =>
        if offset <? 0 then (inl (Builtin ValueError), g)
        else
          let consensus :=
            py_slice2 (readline (skipn (Z.to_nat offset) bytes)) 0 (-1) in
          let '(start, stop, g) :=
            if 0 <? len consensus - max_len self then
              let (start, g) := choice g (len consensus - max_len self) in
              (start, start + max_len self, g)
            else (0, len consensus, g) in
          if structure self then
            match load_structure self idx consensus start stop g with
            | (inl e, g) => (inl e, g)
            | (inr tensors, g) =>
              (inr (py_slice2 consensus start stop, Some tensors), g)
            end
          else (inr (py_slice2 consensus start stop, None), g)
      end
    end
  end.

End WithLibraries.

End UniRefDataset.

(** A consensus file of one sequence of five residues, a dataset that
    crops to three, and a generator that is a counter. *)
Definition one_consensus : list ascii := ["M"; "K"; "V"; "L"; "A"; newline]%char.

Definition open_one_consensus (path : list ascii) : option (list ascii) :=
  Some one_consensus.

Definition counter_choice (g n : Z) : Z * Z := (g mod n, g + 1).

Definition no_structure (self : UniRefDataset.t) (idx : Z) (consensus : list ascii)
           (start stop g : Z) : (error + unit) * Z :=
  (inl RuntimeError, g).

Definition crop_to_three : UniRefDataset.t :=
  {| UniRefDataset.data_dir := ["d"; "/"]%char;
     UniRefDataset.structure := false;
     UniRefDataset.indices := [0];
     UniRefDataset.offsets := [0];
     UniRefDataset.max_len := 3 |}.

(** *** LMDBDataset

    The database maps byte strings to pickled objects. The objects
    covered here are ints, strings and dicts with string keys, which
    is what the code expects ([num_examples] an int, every record a
    dict) and enough to follow what it does with something else. The
    environment is read only; it is the function from a key to what
    [pkl.loads(txn.get(key))] gives, which is [TypeError] for a key
    that is absent and [LibraryError] for an exception of [lmdb] or
    [pickle]. [FileNotFoundError] is an [OSError]. *)

#[warnings="-register-all"] Inductive object : Type :=
| PyInt (n : Z)
| PyStr (s : list ascii)
| PyDict (d : list (list ascii * object)).

(** Decimal digits, most significant first. *)
Fixpoint digits (u : Decimal.uint) : list ascii :=
  match u with
  | Decimal.Nil => []
  | Decimal.D0 u => "0"%char :: digits u
  | Decimal.D1 u => "1"%char :: digits u
  | Decimal.D2 u => "2"%char :: digits u
  | Decimal.D3 u => "3"%char :: digits u
  | Decimal.D4 u => "4"%char :: digits u
  | Decimal.D5 u => "5"%char :: digits u
  | Decimal.D6 u => "6"%char :: digits u
  | Decimal.D7 u => "7"%char :: digits u
  | Decimal.D8 u => "8"%char :: digits u
  | Decimal.D9 u => "9"%char :: digits u
  end.

(** [str(n)] of an int; [.encode()] leaves these characters as they are. *)
Definition str (n : Z) : list ascii :=
  match Z.to_int n with
  | Decimal.Pos u => digits u
  | Decimal.Neg u => "-"%char :: digits u
  end.

Fixpoint str_eqb (a b : list ascii) : bool :=
  match a, b with
  | [], [] => true
  | x :: a', y :: b' => Ascii.eqb x y && str_eqb a' b'
  | _, _ => false
  end.

(** [key in d] on a dict *)
Definition dict_contains (d : list (list ascii * object)) (key : list ascii) : bool :=
  existsb (fun kv => str_eqb (fst kv) key) d.

(** [d[key] = v]: a key that is there keeps its place, a new one goes last. *)
Fixpoint dict_setitem (d : list (list ascii * object)) (key : list ascii) (v : object)
  : list (list ascii * object) :=
  match d with
  | [] => [(key, v)]
  | (k, w) :: r =>
    if str_eqb k key then (k, v) :: r else (k, w) :: dict_setitem r key v
  end.

Definition id_key : list ascii := ["i"; "d"]%char.

Definition num_examples_key : list ascii :=
  ["n"; "u"; "m"; "_"; "e"; "x"; "a"; "m"; "p"; "l"; "e"; "s"]%char.

(** ['id' in item]: membership in a dict, substring of a string, and
    [TypeError] for an int. *)
Definition contains_id (item : object) : error + bool :=
  match item with
  | PyInt _ => inl TypeError
  | PyStr s => inr (match str_index s id_key with Some _ => true | None => false end)
  | PyDict d => inr (dict_contains d id_key)
  end.

(** [item['id'] = v] *)
Definition set_id (item v : object) : error + object :=
  match item with
  | PyDict d => inr (PyDict (dict_setitem d id_key v))
  | _ => inl TypeError
  end.

(** [[None] * n] *)
Definition none_times (n : object) : error + list (option object) :=
  match n with
  | PyInt n => inr (repeat None (Z.to_nat n))
  | _ => inl TypeError
  end.

(** [0 <= index < n]: the second comparison is made only when the
    first holds, and raises [TypeError] when [n] is not a number. *)
Definition in_range (index : Z) (n : object) : error + bool :=
  if 0 <=? index then
    match n with
    | PyInt n => inr (index <? n)
    | _ => inl TypeError
    end
  else inr false.

(** [l[i] = x] on a list, [None] for the [IndexError]. *)
Definition setitem {A} (l : list A) (i : Z) (x : A) : option (list A) :=
  let p := if i <? 0 then len l + i else i in
  if (0 <=? p) && (p <? len l) then
    Some (firstn (Z.to_nat p) l ++ x :: skipn (S (Z.to_nat p)) l)
  else None.

Module LMDBDataset.

(** [_cache] is set only with [in_memory], and not read without. *)
Record t : Type := mk {
  _env : list ascii -> error + object;
  _in_memory : bool;
  _num_examples : object;
  _cache : list (option object)
}.

Section WithLibraries.
(** [Path(data_file).exists()] *)
Variable path_exists : list ascii -> bool.
Variable lmdb_open : list ascii -> error + (list ascii -> error + object).

Definition __init__ (data_file : list ascii) (in_memory : bool) : error + t :=
  if negb (path_exists data_file) then inl OSError
  else
    env <- lmdb_open data_file;;
    num_examples <- env num_examples_key;;
    cache <- (if in_memory then none_times num_examples else inr []);;
    inr {| _env := env; _in_memory := in_memory;
           _num_examples := num_examples; _cache := cache |}.

End WithLibraries.

Definition __len__ (self : t) : object := _num_examples self.

(** The record of [index] as it is read: unpickled, and given an
    ['id'] when it has none. *)
Definition load (env : list ascii -> error + object) (index : Z) : error + object :=
  item <- env (str index);;
  has_id <- contains_id item;;
  if has_id then inr item else set_id item (PyStr (str index)).

Definition __getitem__ (self : t) (index : Z) : (error + object) * t :=
  match in_range index (_num_examples self) with
  | inl e => (inl e, self)
  | inr false => (inl (Builtin IndexError), self)
  | inr true =>
    let cached :=
      if _in_memory self then
        match getitem (_cache self) index with
        | None => inl (Builtin IndexError)
        | Some entry => inr entry
        end
      else inr None in
    match cached with
    | inl e => (inl e, self)
    | inr (Some item) => (inr item, self)
    | inr None =>
      match load (_env self) index with
      | inl e => (inl e, self)
      | inr item =>
        if _in_memory self then
          match setitem (_cache self) index (Some item) with
          | None => (inl (Builtin IndexError), self)
          | Some cache =>
            (inr item,
             {| _env := _env self; _in_memory := _in_memory self;
                _num_examples := _num_examples self; _cache := cache |})
          end
        else (inr item, self)
      end
    end
  end.

(** The states a dataset goes through as items are read from it. *)
Inductive reachable (self0 : t) : t -> Prop :=
| reach_init : reachable self0 self0
| reach_getitem (self : t) (index : Z) :
    reachable self0 self -> reachable self0 (snd (__getitem__ self index)).

End LMDBDataset.

(** A database of two records, the first stored without an ['id']. *)
Definition two_records (key : list ascii) : error + object :=
  if str_eqb key num_examples_key then inr (PyInt 2)
  else if str_eqb key ["0"]%char then
    inr (PyDict [(["p"]%char, PyStr ["M"; "K"]%char)])
  else if str_eqb key ["1"]%char then
    inr (PyDict [(id_key, PyStr ["x"]%char); (["p"]%char, PyStr ["V"]%char)])
  else inl TypeError.

Definition every_path (data_file : list ascii) : bool := true.

Definition open_two_records (data_file : list ascii)
  : error + (list ascii -> error + object) :=
  inr two_records.

Definition empty_database (key : list ascii) : error + object := inl TypeError.

Definition cached_two_records : LMDBDataset.t :=
  {| LMDBDataset._env := two_records; LMDBDataset._in_memory := true;
     LMDBDataset._num_examples := PyInt 2; LMDBDataset._cache := [None; None] |}.

Definition plain_two_records : LMDBDataset.t :=
  {| LMDBDataset._env := two_records; LMDBDataset._in_memory := false;
     LMDBDataset._num_examples := PyInt 2; LMDBDataset._cache := [] |}.

(** * Properties of ApproxBatchSampler *)

Module ApproxBatchSamplerFacts.
Import ApproxBatchSampler.

Lemma len_app_one {A} (l : list A) (x : A) : len (l ++ [x]) = len l + 1.
Proof. unfold len. rewrite length_app. simpl. lia. Qed.

Lemma lengths_of_snoc sl batch idx ls l :
  lengths_of sl batch = Some ls ->
  getitem sl idx = Some l ->
  lengths_of sl (batch ++ [idx]) = Some (ls ++ [l]).
Proof.
  revert ls. induction batch as [|i batch IH]; simpl; intros ls Hls Hl.
  - injection Hls as <-. now rewrite Hl.
  - destruct (getitem sl i) as [li|]; [|discriminate].
    destruct (lengths_of sl batch) as [ls'|]; [|discriminate].
    injection Hls as <-. now rewrite (IH ls' eq_refl Hl).
Qed.

Lemma lengths_of_length sl batch ls :
  lengths_of sl batch = Some ls -> length ls = length batch.
Proof.
  revert ls. induction batch as [|i batch IH]; simpl; intros ls Hls.
  - now injection Hls as <-.
  - destruct (getitem sl i); [|discriminate].
    destruct (lengths_of sl batch) as [ls'|]; [|discriminate].
    injection Hls as <-. simpl. now rewrite (IH ls' eq_refl).
Qed.

Lemma fold_max_le (M : Z) (r : list Z) (x : Z) :
  x <= M -> Forall (fun l => l <= M) r -> fold_left Z.max r x <= M.
Proof.
  intros Hx Hr. revert x Hx. induction Hr as [|y r Hy _ IH]; simpl; intros x Hx.
  - exact Hx.
  - apply IH. lia.
Qed.

Lemma fits_within_budget self batch length :
  fits self batch length -> within_budget self batch.
Proof.
  intros (ls & Hls & Hle & Hfit). exists ls. split; [exact Hls|].
  pose proof (lengths_of_length _ _ _ Hls) as Hlen.
  assert (Hbound : 1 < len batch ->
                   exists m, py_max ls = Some m /\ len batch * m <= max_tokens self).
  { intros H1. specialize (Hfit H1).
    destruct ls as [|x r].
    - unfold len in H1. rewrite <- Hlen in H1. simpl in H1. lia.
    - exists (fold_left Z.max r x). split; [reflexivity|].
      inversion Hle as [|? ? Hx Hr]; subst.
      pose proof (fold_max_le _ _ _ Hx Hr) as Hm.
      unfold len in *. nia. }
  split; [exact Hbound|].
  intros m Hm Hover.
  destruct batch as [|idx [|idx' rest]].
  - simpl in Hls. injection Hls as <-. discriminate.
  - exists idx. split; [reflexivity|].
    simpl in Hls. destruct (getitem (sample_lengths self) idx) as [l|]; [|discriminate].
    injection Hls as <-. simpl in Hm. congruence.
  - destruct Hbound as (m' & Hm' & Hb).
    + unfold len. simpl. lia.
    + rewrite Hm in Hm'. injection Hm' as <-. lia.
Qed.

Lemma fits_nil self : fits self [] 0.
Proof.
  exists []. repeat split; [constructor|]. unfold len. simpl. lia.
Qed.

Lemma fits_single self idx l :
  getitem (sample_lengths self) idx = Some l -> fits self [idx] l.
Proof.
  intros Hl. exists [l]. simpl. rewrite Hl. repeat split.
  - constructor; [lia|constructor].
  - unfold len. simpl. lia.
Qed.

Lemma fits_snoc self batch length idx l :
  fits self batch length ->
  getitem (sample_lengths self) idx = Some l ->
  (len batch + 1) * Z.max length l <= max_tokens self ->
  fits self (batch ++ [idx]) (Z.max length l).
Proof.
  intros (ls & Hls & Hle & _) Hl Htest.
  exists (ls ++ [l]). split; [now apply lengths_of_snoc|]. split.
  - apply Forall_app. split.
    + eapply Forall_impl; [|exact Hle]. simpl. intros; lia.
    + constructor; [lia|constructor].
  - intros _. now rewrite len_app_one.
Qed.

Lemma loop_within_budget self indices :
  forall batch length,
    fits self batch length ->
    Forall (within_budget self) (fst (loop self indices batch length)).
Proof.
  induction indices as [|idx rest IH]; intros batch length Hfits; simpl.
  - constructor.
  - destruct (getitem (sample_lengths self) idx) as [l|] eqn:Hl; [|constructor].
    destruct ((len batch + 1) * Z.max length l <=? max_tokens self) eqn:Htest.
    + apply Z.leb_le in Htest.
      pose proof (fits_snoc _ _ _ _ _ Hfits Hl Htest) as Hfits'.
      destruct (len (batch ++ [idx]) =? max_batch self).
      * specialize (IH [] 0 (fits_nil self)).
        destruct (loop self rest [] 0) as [ys fin]. simpl in *.
        constructor; [now apply fits_within_budget with (Z.max length l)|exact IH].
      * now apply IH.
    + specialize (IH [idx] l (fits_single self idx l Hl)).
      destruct (loop self rest [idx] l) as [ys fin]. simpl in *.
      constructor; [now apply fits_within_budget with length|exact IH].
Qed.

(** The batches yielded and the batch left in the frame at the end make
    up the locals' batch followed by the stream, in order. *)
Lemma loop_partition self indices :
  forall batch length ys b l,
    loop self indices batch length = (ys, Exhausted b l) ->
    concat ys ++ b = batch ++ indices.
Proof.
  induction indices as [|idx rest IH]; intros batch length ys b l; simpl.
  - intros H. injection H as <- <- _. simpl. now rewrite app_nil_r.
  - destruct (getitem (sample_lengths self) idx) as [li|]; [|discriminate].
    destruct ((len batch + 1) * Z.max length li <=? max_tokens self).
    + destruct (len (batch ++ [idx]) =? max_batch self).
      * destruct (loop self rest [] 0) as [ys' fin] eqn:Hrest.
        intros H. injection H as <- ->.
        specialize (IH _ _ _ _ _ Hrest). simpl in *.
        rewrite <- !app_assoc. simpl. now rewrite IH.
      * intros H. specialize (IH _ _ _ _ _ H).
        rewrite IH, <- app_assoc. reflexivity.
    + destruct (loop self rest [idx] li) as [ys' fin] eqn:Hrest.
      intros H. injection H as <- ->.
      specialize (IH _ _ _ _ _ Hrest). simpl in *.
      rewrite <- app_assoc. now rewrite IH.
Qed.

(** C1. The loop of [__iter__] has no statement after the [for]: on
    Scenario B the stream runs out with [batch = [3]] in the frame, and
    the generator stops after [[0, 1]] and [[2]] without yielding it, so
    index 3 is in no batch. *)
Theorem final_batch_dropped :
  loop scenario_B (sampler scenario_B) [] 0 = ([[0; 1]; [2]], Exhausted [3] 1) /\
  __iter__ scenario_B = ([[0; 1]; [2]], StopIteration) /\
  concat (fst (__iter__ scenario_B)) = [0; 1; 2].
Proof. repeat split. Qed.

(** C2. Every batch the generator yields has a length for each member,
    and if it holds more than one index, its size times its largest
    member length is at most [max_tokens]; a batch whose cost exceeds
    [max_tokens] is a single index, and the cost is that index's own
    length. *)
Theorem token_bound (self : t) (B : list Z) :
  In B (fst (__iter__ self)) ->
  exists ls,
    lengths_of (sample_lengths self) B = Some ls /\
    (1 < len B ->
     exists m, py_max ls = Some m /\ len B * m <= max_tokens self) /\
    (forall m, py_max ls = Some m -> max_tokens self < len B * m ->
               exists idx, B = [idx] /\ getitem (sample_lengths self) idx = Some m).
Proof.
  intros HB.
  pose proof (loop_within_budget self (sampler self) [] 0 (fits_nil self)) as Hall.
  unfold __iter__ in HB.
  destruct (loop self (sampler self) [] 0) as [ys fin]. simpl in *.
  rewrite Forall_forall in Hall. exact (Hall B HB).
Qed.

Lemma token_bound_witness :
  In [0; 1] (fst (__iter__ scenario_B)) /\
  exists ls,
    lengths_of (sample_lengths scenario_B) [0; 1] = Some ls /\
    (1 < len [0; 1] ->
     exists m, py_max ls = Some m /\ len [0; 1] * m <= max_tokens scenario_B) /\
    (forall m, py_max ls = Some m -> max_tokens scenario_B < len [0; 1] * m ->
               exists idx, [0; 1] = [idx] /\
                           getitem (sample_lengths scenario_B) idx = Some m).
Proof.
  split; [simpl; auto | apply (token_bound scenario_B [0; 1]); simpl; auto].
Defined.

(** C3. The test of the loop has no case for an empty [batch]: when
    the first index is longer than the budget (length 10 against 6
    tokens), the [else] branch yields the empty batch before it starts
    [[0]]. *)
Theorem empty_batch_yielded :
  __iter__ (__init__ [0; 1] 6 3 [10; 1]) = ([[]; [0]], StopIteration) /\
  In [] (fst (__iter__ (__init__ [0; 1] 6 3 [10; 1]))).
Proof. split; [reflexivity | simpl; auto]. Qed.

End ApproxBatchSamplerFacts.

(** * Slices *)

Module SliceFacts.

Lemma at_position_Some {A} (l : list A) (p : Z) (x : A) :
  0 <= p -> nth_error l (Z.to_nat p) = Some x -> at_position l p = [x].
Proof.
  intros Hp Hx. unfold at_position.
  destruct (p <? 0) eqn:E; [apply Z.ltb_lt in E; lia|]. now rewrite Hx.
Qed.

(** A run of selected positions that all lie inside the list has one
    element for each of them, in order. *)
Lemma selected_in_range {A} (l : list A) (f : nat -> Z) (n : nat) :
  (forall k, (k < n)%nat -> 0 <= f k < len l) ->
  length (flat_map (fun k => at_position l (f k)) (seq 0 n)) = n /\
  forall q, (q < n)%nat ->
    nth_error (flat_map (fun k => at_position l (f k)) (seq 0 n)) q
    = nth_error l (Z.to_nat (f q)).
Proof.
  induction n as [|n IH]; intros Hrange.
  - split; [reflexivity|]. intros q Hq. lia.
  - destruct IH as [IHlen IHnth]; [intros k Hk; apply Hrange; lia|].
    rewrite seq_S, flat_map_app. simpl. rewrite app_nil_r.
    destruct (Hrange n (Nat.lt_succ_diag_r n)) as [Hlo Hhi].
    destruct (nth_error l (Z.to_nat (f n))) as [x|] eqn:Hx.
    2:{ apply nth_error_None in Hx. unfold len in Hhi. lia. }
    rewrite (at_position_Some l (f n) x Hlo Hx).
    split.
    + rewrite length_app, IHlen. simpl. lia.
    + intros q Hq. destruct (Nat.eq_dec q n) as [->|Hne].
      * rewrite nth_error_app2 by lia. rewrite IHlen, Nat.sub_diag. simpl.
        now rewrite Hx.
      * rewrite nth_error_app1 by lia. apply IHnth. lia.
Qed.

Lemma adjust_index_nonneg (n i : Z) :
  0 <= n -> 0 <= i -> adjust_index n i 1 = Z.min i n.
Proof.
  intros Hn Hi. unfold adjust_index.
  destruct (i <? 0) eqn:E1; [apply Z.ltb_lt in E1; lia|].
  destruct (n <=? i) eqn:E2; simpl.
  - apply Z.leb_le in E2. lia.
  - apply Z.leb_gt in E2. lia.
Qed.


Lemma slice_length_one (s e : Z) : slice_length s e 1 = Z.max 0 (e - s).
Proof.
  unfold slice_length. simpl.
  destruct (s <? e) eqn:E.
  - apply Z.ltb_lt in E. rewrite Z.div_1_r. lia.
  - apply Z.ltb_ge in E. lia.
Qed.

(** [l[a:b]] for bounds that are not negative is the run of [b - a]
    elements from position [a], cut at the end of the list. *)
Lemma py_slice2_firstn_skipn {A} (l : list A) (a b : nat) :
  py_slice2 l (Z.of_nat a) (Z.of_nat b) = firstn (b - a) (skipn a l).
Proof.
  unfold py_slice2.
  assert (Hn : 0 <= len l) by (unfold len; lia).
  rewrite !adjust_index_nonneg by lia. rewrite slice_length_one.
  unfold range.
  set (s := Z.min (Z.of_nat a) (len l)).
  set (c := Z.to_nat (Z.max 0 (Z.min (Z.of_nat b) (len l) - s))).
  destruct (selected_in_range l (fun k => s + Z.of_nat k) c) as [Hlen Hnth].
  { intros k Hk. unfold c, s, len in *. lia. }
  apply nth_error_ext. intros q.
  rewrite nth_error_firstn, nth_error_skipn.
  destruct (Nat.ltb q (b - a)) eqn:Hq.
  - apply Nat.ltb_lt in Hq.
    destruct (Nat.lt_ge_cases q c) as [Hqc|Hqc].
    + rewrite (Hnth q Hqc). f_equal. unfold s, len in *. lia.
    + transitivity (@None A).
      * apply nth_error_None. lia.
      * symmetry. apply nth_error_None. unfold c, s, len in *. lia.
  - apply Nat.ltb_ge in Hq. apply nth_error_None.
    rewrite Hlen. unfold c, s, len. lia.
Qed.



End SliceFacts.

(** * The bucket partition *)

Module BucketFacts.
Import SliceFacts SortishSampler.

Lemma ceil_div_bounds (a b : Z) :
  0 < b -> a <= ceil_div a b * b < a + b.
Proof.
  intros Hb. unfold ceil_div.
  pose proof (Z.div_mod (- a) b ltac:(lia)) as Hdm.
  pose proof (Z.mod_pos_bound (- a) b Hb) as Hmod.
  nia.
Qed.

Lemma ceil_div_nonneg (a b : Z) : 0 < b -> 0 <= a -> 0 <= ceil_div a b.
Proof. intros Hb Ha. pose proof (ceil_div_bounds a b Hb). nia. Qed.

Lemma firstn_plus {A} (a b : nat) (l : list A) :
  firstn (a + b) l = firstn a l ++ firstn b (skipn a l).
Proof.
  revert l. induction a as [|a IH]; intros l; simpl; [reflexivity|].
  destruct l as [|x l]; simpl.
  - now rewrite firstn_nil.
  - now rewrite IH.
Qed.

Lemma concat_chunks {A} (l : list A) (b n : nat) :
  concat (map (fun i => firstn b (skipn (i * b) l)) (seq 0 n)) = firstn (n * b) l.
Proof.
  induction n as [|n IH]; [reflexivity|].
  rewrite seq_S, map_app, concat_app, IH. simpl.
  rewrite app_nil_r, <- firstn_plus. f_equal. lia.
Qed.

Lemma buckets_of_chunks (order : list nat) (bs nb : Z) :
  0 < bs ->
  buckets_of order bs nb
  = map (fun i => firstn (Z.to_nat bs) (skipn (i * Z.to_nat bs) order)) (range nb).
Proof.
  intros Hbs. unfold buckets_of. apply map_ext. intros i.
  replace (Z.of_nat i * bs) with (Z.of_nat (i * Z.to_nat bs)) by lia.
  replace (Z.of_nat (i * Z.to_nat bs) + bs)
    with (Z.of_nat (i * Z.to_nat bs + Z.to_nat bs)) by lia.
  rewrite py_slice2_firstn_skipn. f_equal. lia.
Qed.

(** The buckets built by [__init__] put together give back the order. *)
Lemma concat_buckets_of (order : list nat) (bs : Z) :
  0 < bs ->
  concat (buckets_of order bs (ceil_div (len order) bs)) = order.
Proof.
  intros Hbs. rewrite buckets_of_chunks by exact Hbs. unfold range.
  rewrite concat_chunks. apply firstn_all2.
  pose proof (ceil_div_bounds (len order) bs Hbs) as Hb.
  assert (0 <= ceil_div (len order) bs)
    by (apply ceil_div_nonneg; [exact Hbs | unfold len; lia]).
  unfold len in *. nia.
Qed.




Lemma Permutation_concat {A} (l l' : list (list A)) :
  Permutation l l' -> Permutation (concat l) (concat l').
Proof.
  intros H. rewrite <- (map_id l), <- (map_id l'), <- !flat_map_concat_map.
  now apply Permutation_flat_map.
Qed.

Lemma Forall2_Permutation_concat {A} (l l' : list (list A)) :
  Forall2 (@Permutation A) l l' -> Permutation (concat l) (concat l').
Proof.
  induction 1; simpl; [constructor|]. now apply Permutation_app.
Qed.

Lemma Forall2_Permutation_trans {A} (l1 l2 l3 : list (list A)) :
  Forall2 (@Permutation A) l1 l2 -> Forall2 (@Permutation A) l2 l3 ->
  Forall2 (@Permutation A) l1 l3.
Proof.
  intros H12. revert l3. induction H12 as [|x y l1 l2 Hxy _ IH]; intros l3 H23.
  - inversion H23. constructor.
  - inversion H23 as [|? z ? l3' Hyz H23']; subst.
    constructor; [now transitivity y | now apply IH].
Qed.

Lemma same_buckets_refl (bs : list (list nat)) : same_buckets bs bs.
Proof.
  exists bs. split; [reflexivity|].
  induction bs; constructor; [reflexivity | assumption].
Qed.

Lemma same_buckets_step (d2 d1 d0 : list (list nat)) :
  same_buckets d2 d1 -> same_buckets d1 d0 -> same_buckets d2 d0.
Proof.
  intros (l2 & Hp2 & Hf2) (l1 & Hp1 & Hf1).
  apply Forall2_flip in Hf2.
  destruct (Permutation_Forall2 Hp1 Hf2) as (l2' & Hp & Hf).
  exists l2'. split.
  - now transitivity l2.
  - apply Forall2_flip in Hf.
    apply Forall2_Permutation_trans with l1; [|exact Hf1].
    eapply Forall2_impl; [|exact Hf]. simpl. intros a b Hab. exact Hab.
Qed.

Lemma same_buckets_concat (d d0 : list (list nat)) :
  same_buckets d d0 -> Permutation (concat d) (concat d0).
Proof.
  intros (l & Hp & Hf). transitivity (concat l).
  - now apply Permutation_concat.
  - now apply Forall2_Permutation_concat.
Qed.

Section WithNumpy.
Context {np : Numpy} {contract : NumpyContract np}.

Lemma shuffle_each_Forall2 (g : RandomState) (buckets : list (list nat)) :
  Forall2 (@Permutation nat) (fst (shuffle_each g buckets)) buckets.
Proof.
  revert g. induction buckets as [|b rest IH]; intros g; simpl; [constructor|].
  pose proof (shuffle_Permutation g b) as Hb.
  destruct (shuffle g b) as [b' g1]. specialize (IH g1).
  destruct (shuffle_each g1 rest) as [rest' g2]. simpl in *.
  now constructor.
Qed.

Lemma shuffle_data_same_buckets (g : RandomState) (buckets : list (list nat)) :
  same_buckets (fst (shuffle_data g buckets)) buckets.
Proof.
  unfold shuffle_data.
  pose proof (shuffle_each_Forall2 g buckets) as Hf.
  destruct (shuffle_each g buckets) as [buckets' g1]. simpl in Hf.
  exists buckets'. split; [apply shuffle_Permutation | exact Hf].
Qed.

Lemma iter_same_buckets (self : t) (g : RandomState) :
  same_buckets (data (snd (fst (__iter__ self g)))) (data self).
Proof.
  unfold __iter__. destruct (seed (epoch self)) as [g0|]; simpl.
  - pose proof (shuffle_data_same_buckets g0 (data self)) as H.
    destruct (shuffle_data g0 (data self)) as [buckets g1]. exact H.
  - apply same_buckets_refl.
Qed.

(** No call changes the configuration fields. *)
Lemma reachable_fields (self0 self : t) :
  reachable self0 self ->
  num_replicas self = num_replicas self0 /\
  num_samples self = num_samples self0 /\
  bucket_size self = bucket_size self0 /\
  rank self = rank self0 /\
  total_size self = total_size self0.
Proof.
  induction 1 as [|self e _ IH|self g _ IH]; [repeat split | exact IH |].
  unfold __iter__. destruct (seed (epoch self)) as [g0|]; simpl; [|exact IH].
  destruct (shuffle_data g0 (data self)) as [buckets g1]. exact IH.
Qed.

Lemma reachable_same_buckets (self0 self : t) :
  reachable self0 self -> same_buckets (data self) (data self0).
Proof.
  induction 1 as [|self e _ IH|self g _ IH].
  - apply same_buckets_refl.
  - exact IH.
  - eapply same_buckets_step; [apply iter_same_buckets | exact IH].
Qed.

End WithNumpy.

End BucketFacts.

Module NumpyModels.

Section SortBy.
Variable leb : nat -> nat -> bool.
Variable R : nat -> nat -> Prop.
Hypothesis leb_true : forall i j, leb i j = true -> R i j.
Hypothesis leb_false : forall i j, leb i j = false -> R j i.
Hypothesis R_trans : forall i j k, R i j -> R j k -> R i k.

Lemma insert_by_Permutation (i : nat) (l : list nat) :
  Permutation (insert_by leb i l) (i :: l).
Proof.
  induction l as [|j r IH]; simpl; [reflexivity|].
  destruct (leb i j); [reflexivity|].
  rewrite IH. apply perm_swap.
Qed.

Lemma sort_by_Permutation (l : list nat) : Permutation (sort_by leb l) l.
Proof.
  induction l as [|i l IH]; simpl; [reflexivity|].
  rewrite insert_by_Permutation. now apply perm_skip.
Qed.

Lemma insert_by_sorted (i : nat) (l : list nat) :
  StronglySorted R l -> StronglySorted R (insert_by leb i l).
Proof.
  induction 1 as [|j r Hr IH Hj]; simpl.
  - constructor; constructor.
  - destruct (leb i j) eqn:E.
    + constructor; [now constructor|].
      constructor; [now apply leb_true|].
      eapply Forall_impl; [|exact Hj]. intros x Hx.
      apply R_trans with j; [now apply leb_true | exact Hx].
    + constructor; [exact IH|].
      eapply Permutation_Forall; [symmetry; apply insert_by_Permutation|].
      constructor; [now apply leb_false | exact Hj].
Qed.

Lemma sort_by_sorted (l : list nat) : StronglySorted R (sort_by leb l).
Proof.
  induction l as [|i l IH]; simpl; [constructor | now apply insert_by_sorted].
Qed.

End SortBy.

Lemma argsort_stable_Permutation (a : list Z) :
  Permutation (argsort_stable a) (seq 0 (length a)).
Proof. apply sort_by_Permutation. Qed.

Lemma argsort_stable_sorted (a : list Z) :
  StronglySorted (fun i j => key a i <= key a j) (argsort_stable a).
Proof.
  apply sort_by_sorted; simpl.
  - intros i j H. apply Z.leb_le in H. exact H.
  - intros i j H. apply Z.leb_gt in H. lia.
  - intros i j k. lia.
Qed.

Lemma argsort_reversed_ties_Permutation (a : list Z) :
  Permutation (argsort_reversed_ties a) (seq 0 (length a)).
Proof. apply sort_by_Permutation. Qed.

Lemma argsort_reversed_ties_sorted (a : list Z) :
  StronglySorted (fun i j => key a i <= key a j) (argsort_reversed_ties a).
Proof.
  apply sort_by_sorted; simpl.
  - intros i j H. apply Z.ltb_lt in H. lia.
  - intros i j H. apply Z.ltb_ge in H. exact H.
  - intros i j k. lia.
Qed.

Lemma insert_at_Permutation {A} (k : nat) (a : A) (l : list A) :
  Permutation (insert_at k a l) (a :: l).
Proof.
  unfold insert_at. rewrite <- Permutation_middle.
  now rewrite firstn_skipn.
Qed.

Lemma lcg_shuffle_Permutation (A : Type) (g : Z) (x : list A) :
  Permutation (fst (lcg_shuffle A g x)) x.
Proof.
  induction x as [|a r IH]; simpl; [reflexivity|].
  destruct (lcg_shuffle A g r) as [r' g1]. simpl in *.
  rewrite insert_at_Permutation. now apply perm_skip.
Qed.

Lemma numpy_model_contract : NumpyContract numpy_model.
Proof.
  split.
  - exact lcg_shuffle_Permutation.
  - exact argsort_stable_Permutation.
  - exact argsort_stable_sorted.
Qed.

Lemma numpy_reversed_ties_contract : NumpyContract numpy_reversed_ties.
Proof.
  split.
  - exact lcg_shuffle_Permutation.
  - exact argsort_reversed_ties_Permutation.
  - exact argsort_reversed_ties_sorted.
Qed.

End NumpyModels.

(** * Properties of SortishSampler *)

Module SortishSamplerFacts.
Import SliceFacts BucketFacts NumpyModels SortishSampler.

Lemma StronglySorted_nth_error (R : nat -> nat -> Prop) (l : list nat) :
  StronglySorted R l ->
  forall p q x y, nth_error l p = Some x -> nth_error l q = Some y ->
                  (p < q)%nat -> R x y.
Proof.
  induction 1 as [|a l _ IH Ha]; intros p q x y Hp Hq Hpq.
  - destruct p; discriminate.
  - destruct q as [|q]; [lia|]. simpl in Hq.
    destruct p as [|p]; simpl in Hp.
    + injection Hp as <-. rewrite Forall_forall in Ha.
      apply Ha. eapply nth_error_In. exact Hq.
    + apply (IH p q); [assumption..|lia].
Qed.

Lemma Forall2_nth_error {A B} (P : A -> B -> Prop) (l : list A) (l' : list B) :
  Forall2 P l l' ->
  forall k y, nth_error l' k = Some y ->
              exists x, nth_error l k = Some x /\ P x y.
Proof.
  induction 1 as [|x y' l l' Hxy _ IH]; intros k y Hk.
  - destruct k; discriminate.
  - destruct k as [|k]; simpl in *.
    + injection Hk as <-. now exists x.
    + now apply IH.
Qed.





Section WithNumpy.
Context {np : Numpy} {contract : NumpyContract np}.

Lemma init_inr (sequence_lengths : list Z) (bucket_size num_replicas rank : Z)
      (self0 : t) :
  __init__ sequence_lengths bucket_size num_replicas rank = inr self0 ->
  num_replicas <> 0 /\ bucket_size <> 0 /\
  self0 =
  {| data := buckets_of (argsort sequence_lengths) bucket_size
                        (ceil_div (len (argsort sequence_lengths)) bucket_size);
     SortishSampler.num_replicas := num_replicas;
     num_samples := ceil_div (len (argsort sequence_lengths)) num_replicas;
     SortishSampler.bucket_size := bucket_size;
     SortishSampler.rank := rank;
     epoch := 0;
     total_size := ceil_div (len (argsort sequence_lengths)) num_replicas
                   * num_replicas |}.
Proof.
  unfold __init__.
  destruct (num_replicas =? 0) eqn:E1; [discriminate|].
  destruct (bucket_size =? 0) eqn:E2; [discriminate|].
  apply Z.eqb_neq in E1, E2. intros H. injection H as <-. auto.
Qed.


Lemma init_order (sequence_lengths : list Z) (bucket_size num_replicas rank : Z)
      (self0 : t) :
  0 < bucket_size ->
  __init__ sequence_lengths bucket_size num_replicas rank = inr self0 ->
  concat (data self0) = argsort sequence_lengths.
Proof.
  intros Hbs Hinit. apply init_inr in Hinit as (_ & _ & ->). simpl.
  now apply concat_buckets_of.
Qed.

(** What [__iter__] does once the generator is seeded. *)
Lemma iter_seeded (self : t) (g g0 : RandomState) :
  seed (epoch self) = Some g0 ->
  __iter__ self g
  = (subsample self (flatten (fst (shuffle_data g0 (data self)))),
     set_data self (fst (shuffle_data g0 (data self))),
     snd (shuffle_data g0 (data self))).
Proof.
  intros Hseed. unfold __iter__. rewrite Hseed.
  now destruct (shuffle_data g0 (data self)).
Qed.

Lemma subsample_set_data (self : t) (buckets : list (list nat))
      (indices : list nat) :
  subsample (set_data self buckets) indices = subsample self indices.
Proof. reflexivity. Qed.

(** The shuffles work on [self.data] itself: a second call at the same
    epoch draws the same numbers, but rearranges the buckets as the
    first call left them. *)
Lemma second_pass_shuffles_again (self : t) (g g' g0 : RandomState) :
  seed (epoch self) = Some g0 ->
  fst (fst (__iter__ (snd (fst (__iter__ self g))) g'))
  = subsample self
      (flatten (fst (shuffle_data g0 (fst (shuffle_data g0 (data self)))))).
Proof.
  intros Hseed. rewrite (iter_seeded self g g0 Hseed). cbn [fst snd].
  rewrite (iter_seeded (set_data self _) g' g0 Hseed). cbn [fst snd data set_data].
  apply subsample_set_data.
Qed.



Lemma flatten_shuffled_Permutation (sequence_lengths : list Z)
      (bucket_size num_replicas rank : Z) (self0 self : t) (g0 : RandomState) :
  0 < bucket_size ->
  __init__ sequence_lengths bucket_size num_replicas rank = inr self0 ->
  reachable self0 self ->
  Permutation (flatten (fst (shuffle_data g0 (data self))))
              (seq 0 (length sequence_lengths)).
Proof.
  intros Hbs Hinit Hreach. unfold flatten.
  rewrite (same_buckets_concat _ _ (shuffle_data_same_buckets g0 (data self))).
  rewrite (same_buckets_concat _ _ (reachable_same_buckets _ _ Hreach)).
  rewrite (init_order _ _ _ _ _ Hbs Hinit). apply argsort_Permutation.
Qed.





(** C10. A constructed sampler has epoch 0, so that a first [__iter__]
    seeds the generator with 0; and [set_epoch] stores the new epoch and
    changes no other field. *)
Theorem fresh_epoch_and_set_epoch (sequence_lengths : list Z)
        (bucket_size num_replicas rank : Z) (self0 : t) :
  __init__ sequence_lengths bucket_size num_replicas rank = inr self0 ->
  epoch self0 = 0 /\
  (forall g,
     __iter__ self0 g
     = match seed 0 with
       | None => (inl ValueError, self0, g)
       | Some g0 =>
         (subsample self0 (flatten (fst (shuffle_data g0 (data self0)))),
          set_data self0 (fst (shuffle_data g0 (data self0))),
          snd (shuffle_data g0 (data self0)))
       end) /\
  (forall self e,
     epoch (set_epoch self e) = e /\
     data (set_epoch self e) = data self /\
     SortishSampler.rank (set_epoch self e) = SortishSampler.rank self /\
     num_samples (set_epoch self e) = num_samples self /\
     total_size (set_epoch self e) = total_size self /\
     SortishSampler.num_replicas (set_epoch self e)
     = SortishSampler.num_replicas self /\
     SortishSampler.bucket_size (set_epoch self e)
     = SortishSampler.bucket_size self).
Proof.
  intros Hinit.
  assert (He : epoch self0 = 0)
    by (apply init_inr in Hinit as (_ & _ & ->); reflexivity).
  split; [exact He|]. split.
  - intros g. destruct (seed 0) as [g0|] eqn:Hseed.
    + apply iter_seeded. now rewrite He.
    + unfold __iter__. now rewrite He, Hseed.
  - intros self e. repeat split.
Qed.

Lemma same_buckets_single (d : list (list nat)) (i : nat) :
  same_buckets d [[i]] -> d = [[i]].
Proof.
  intros (l & Hperm & Hall).
  inversion Hall as [|x y l' r Hx Hr]; subst.
  inversion Hr; subst.
  apply Permutation_sym, Permutation_length_1_inv in Hx. subst x.
  now apply Permutation_sym, Permutation_length_1_inv in Hperm.
Qed.

Lemma argsort_single (l : Z) : argsort [l] = [0%nat].
Proof.
  pose proof (argsort_Permutation [l]) as H. simpl in H.
  now apply Permutation_sym, Permutation_length_1_inv in H.
Qed.

(** With a single sequence there is nothing to shuffle: every accepted
    epoch gives the sequence [[0]]. *)
Lemma single_item_every_epoch (l e : Z) (self0 : t) (g g0 : RandomState) :
  __init__ [l] 1 1 0 = inr self0 ->
  seed e = Some g0 ->
  fst (fst (__iter__ (set_epoch self0 e) g)) = inr [0%nat].
Proof.
  intros Hinit Hseed. apply init_inr in Hinit as (_ & _ & ->).
  rewrite argsort_single.
  rewrite (iter_seeded (set_epoch _ e) g g0 Hseed). cbn [fst data set_epoch].
  change (buckets_of [0%nat] 1 (ceil_div (len [0%nat]) 1)) with [[0%nat]].
  pose proof (shuffle_data_same_buckets g0 [[0%nat]]) as H.
  apply same_buckets_single in H. rewrite H. reflexivity.
Qed.

(** C7. With one sequence and three replicas, [num_samples] is 1 and
    [total_size] is 3, but the padding line can add no more than the one
    index there is: [indices] has length 2 and the assertion
    [len(indices) == self.total_size] fails, whatever the shuffles do. No
    rank gets its [num_samples] indices. *)
Theorem padding_too_short (g : RandomState) :
  exists self0,
    __init__ [5] 1 3 0 = inr self0 /\
    num_samples self0 = 1 /\
    total_size self0 = 3 /\
    pad self0 [0%nat] = [0%nat; 0%nat] /\
    fst (fst (__iter__ self0 g))
    = match seed 0 with
      | Some _ => inl AssertionError
      | None => inl ValueError
      end.
Proof.
  exists {| data := [[0%nat]];
            num_replicas := 3; num_samples := 1; bucket_size := 1;
            rank := 0; epoch := 0; total_size := 3 |}.
  split; [unfold __init__; rewrite argsort_single; reflexivity|].
  repeat split.
  unfold __iter__. cbn [epoch data].
  destruct (seed 0) as [g0|]; [|reflexivity].
  pose proof (shuffle_data_same_buckets g0 [[0%nat]]) as H.
  destruct (shuffle_data g0 [[0%nat]]) as [buckets g1]. simpl in H.
  apply same_buckets_single in H. subst buckets. reflexivity.
Qed.

End WithNumpy.






Lemma fresh_epoch_and_set_epoch_witness :
  epoch scenario_A = 0 /\
  fst (fst (@__iter__ numpy_model scenario_A 7)) = inr [2; 0; 3; 1; 4]%nat /\
  epoch (set_epoch scenario_A 4) = 4 /\
  data (set_epoch scenario_A 4) = data scenario_A.
Proof.
  destruct (@fresh_epoch_and_set_epoch numpy_model [5; 1; 2; 8; 3] 5 1 0
              scenario_A eq_refl) as (He & Hiter & Hset).
  split; [exact He|]. split; [rewrite Hiter; reflexivity|].
  destruct (Hset scenario_A 4) as (H1 & H2 & _). split; assumption.
Defined.

Lemma padding_too_short_witness :
  exists self0,
    @__init__ numpy_model [5] 1 3 0 = inr self0 /\
    num_samples self0 = 1 /\
    total_size self0 = 3 /\
    fst (fst (@__iter__ numpy_model self0 0)) = inl AssertionError.
Proof.
  destruct (@padding_too_short numpy_model numpy_model_contract 0)
    as (self0 & Hinit & Hns & Hts & _ & Hiter).
  exists self0. repeat split; assumption.
Defined.

(** Scenario C of the specification: ten sequences on three replicas.
    [num_samples] is 4 and [total_size] 12, and the three ranks get the
    positions [r, r + 3, r + 6, r + 9] of one padded permutation. *)
Example scenario_C_shards :
  let lengths := [5; 1; 2; 8; 3; 7; 7; 1; 0; 4] in
  let shard r :=
    match @__init__ numpy_model lengths 3 3 r with
    | inr self0 => fst (fst (@__iter__ numpy_model self0 0))
    | inl e => inl e
    end in
  shard 0 = inr [0; 9; 1; 3]%nat /\
  shard 1 = inr [5; 4; 7; 0]%nat /\
  shard 2 = inr [6; 2; 8; 5]%nat.
Proof. repeat split. Qed.


End SortishSamplerFacts.

(** * More on ApproxBatchSampler: order, sizes, errors *)

Module ApproxBatchSamplerMore.
Import ApproxBatchSampler ApproxBatchSamplerFacts.


Lemma loop_prefix self indices :
  forall batch length,
  exists rest,
    batch ++ indices = concat (fst (loop self indices batch length)) ++ rest /\
    forall b l, snd (loop self indices batch length) = Exhausted b l -> rest = b.
Proof.
  induction indices as [|idx rest IH]; intros batch length; simpl.
  - exists batch. split; [now rewrite app_nil_r|]. intros b l H. now injection H.
  - destruct (getitem (sample_lengths self) idx) as [li|]; simpl.
    2:{ exists (batch ++ idx :: rest). split; [reflexivity | discriminate]. }
    destruct ((len batch + 1) * Z.max length li <=? max_tokens self).
    + destruct (len (batch ++ [idx]) =? max_batch self).
      * destruct (IH [] 0) as (r & Hr & Hfin).
        destruct (loop self rest [] 0) as [ys fin]. simpl in *.
        exists r. split; [|exact Hfin].
        rewrite <- app_assoc, <- Hr. now rewrite <- app_assoc.
      * destruct (IH (batch ++ [idx]) (Z.max length li)) as (r & Hr & Hfin).
        exists r. split; [|exact Hfin]. rewrite <- Hr. now rewrite <- app_assoc.
    + destruct (IH [idx] li) as (r & Hr & Hfin).
      destruct (loop self rest [idx] li) as [ys fin]. simpl in *.
      exists r. split; [|exact Hfin]. rewrite <- app_assoc, <- Hr. reflexivity.
Qed.

(** The batches yielded, put end to end, are a prefix of the index
    stream: no index is reordered, repeated or skipped between batches.
    When the stream runs out, the indices missing at the end are exactly
    the batch still in the frame. *)
Theorem batches_prefix_of_stream (self : t) :
  exists rest,
    sampler self = concat (fst (__iter__ self)) ++ rest /\
    forall b l,
      snd (loop self (sampler self) [] 0) = Exhausted b l -> rest = b.
Proof.
  destruct (loop_prefix self (sampler self) [] 0) as (rest & Hrest & Hfin).
  exists rest. split; [|exact Hfin].
  unfold __iter__. simpl in Hrest.
  destruct (loop self (sampler self) [] 0) as [ys fin]. exact Hrest.
Qed.

Lemma loop_size_bound self indices :
  2 <= max_batch self ->
  forall batch length,
    len batch < max_batch self ->
    Forall (fun B => len B <= max_batch self)
           (fst (loop self indices batch length)).
Proof.
  intros Hmb. induction indices as [|idx rest IH]; intros batch length Hlen; simpl.
  - constructor.
  - destruct (getitem (sample_lengths self) idx) as [li|]; [|constructor].
    destruct ((len batch + 1) * Z.max length li <=? max_tokens self).
    + destruct (Z.eqb_spec (len (batch ++ [idx])) (max_batch self)) as [E|E].
      * specialize (IH [] 0 ltac:(unfold len; simpl; lia)).
        destruct (loop self rest [] 0) as [ys fin]. simpl in *.
        constructor; [lia | exact IH].
      * apply IH. rewrite len_app_one in *. lia.
    + specialize (IH [idx] li ltac:(unfold len; simpl; lia)).
      destruct (loop self rest [idx] li) as [ys fin]. simpl in *.
      constructor; [lia | exact IH].
Qed.

(** With [max_batch] at least 2, no batch yielded holds more than
    [max_batch] indices. *)
Theorem batch_size_bound (self : t) (B : list Z) :
  2 <= max_batch self ->
  In B (fst (__iter__ self)) ->
  len B <= max_batch self.
Proof.
  intros Hmb HB.
  pose proof (loop_size_bound self (sampler self) Hmb [] 0
                              ltac:(unfold len; simpl; lia)) as Hall.
  unfold __iter__ in HB.
  destruct (loop self (sampler self) [] 0) as [ys fin]. simpl in *.
  rewrite Forall_forall in Hall. exact (Hall B HB).
Qed.

Lemma batch_size_bound_witness :
  In [0; 1] (fst (__iter__ scenario_B)) /\ len [0; 1] <= max_batch scenario_B.
Proof.
  split; [simpl; auto|].
  apply (batch_size_bound scenario_B [0; 1]); [simpl; lia | simpl; auto].
Defined.

(** With [max_batch = 1] the bound does not hold: a batch started by the
    [else] branch already has one index and is not yielded, and it keeps
    growing while the budget allows. *)
Example max_batch_one_exceeded :
  __iter__ (__init__ [0; 1; 2; 3; 4; 5] 4 1 [5; 1; 1; 1; 1; 1])
  = ([[]; [0]; [1; 2; 3; 4]], StopIteration).
Proof. reflexivity. Qed.

Lemma fits_all_full_and_within self batch length :
  batch <> [] -> fits_all self batch length -> full_and_within self batch.
Proof.
  intros Hne (ls & Hls & Hle & Hfit & _). split; [exact Hne|].
  specialize (Hfit Hne).
  pose proof (lengths_of_length _ _ _ Hls) as Hlen.
  destruct ls as [|x r].
  - destruct batch; [contradiction | discriminate].
  - exists (x :: r), (fold_left Z.max r x). repeat split; [exact Hls|].
    inversion Hle as [|? ? Hx Hr]; subst.
    pose proof (fold_max_le _ _ _ Hx Hr) as Hm.
    assert (0 <= len batch) by (unfold len; lia). nia.
Qed.

Lemma loop_full_and_within self indices :
  0 <= max_tokens self ->
  (forall idx l, In idx indices ->
                 getitem (sample_lengths self) idx = Some l ->
                 l <= max_tokens self) ->
  forall batch length,
    fits_all self batch length ->
    Forall (full_and_within self) (fst (loop self indices batch length)).
Proof.
  intros Hmt. induction indices as [|idx rest IH]; intros Hshort batch length Hfits;
    simpl.
  - constructor.
  - assert (Hrest : forall i l, In i rest ->
                                getitem (sample_lengths self) i = Some l ->
                                l <= max_tokens self)
      by (intros i l Hi; apply Hshort; now right).
    specialize (IH Hrest).
    destruct (getitem (sample_lengths self) idx) as [li|] eqn:Hli; [|constructor].
    assert (Hle : li <= max_tokens self) by (apply (Hshort idx); [now left | exact Hli]).
    assert (Hnil : fits_all self [] 0).
    { exists []. repeat split; [constructor | intros H; contradiction]. }
    assert (Hone : fits_all self [idx] li).
    { exists [li]. cbn [lengths_of]. rewrite Hli. repeat split.
      - constructor; [lia | constructor].
      - intros _. change (len [idx]) with 1. lia.
      - discriminate. }
    destruct (Z.leb_spec ((len batch + 1) * Z.max length li) (max_tokens self))
      as [Htest|Htest].
    + assert (Hsnoc : fits_all self (batch ++ [idx]) (Z.max length li)).
      { destruct Hfits as (ls & Hls & Hall & _ & _).
        exists (ls ++ [li]). split; [now apply lengths_of_snoc|]. split; [|split].
        - apply Forall_app. split.
          + eapply Forall_impl; [|exact Hall]. simpl. intros; lia.
          + constructor; [lia | constructor].
        - intros _. now rewrite len_app_one.
        - intros H. now apply app_eq_nil in H as [_ H]. }
      destruct (len (batch ++ [idx]) =? max_batch self).
      * specialize (IH [] 0 Hnil).
        destruct (loop self rest [] 0) as [ys fin]. simpl in *.
        constructor; [|exact IH].
        apply fits_all_full_and_within with (Z.max length li); [|exact Hsnoc].
        intros H. now apply app_eq_nil in H as [_ H].
      * now apply IH.
    + specialize (IH [idx] li Hone).
      destruct (loop self rest [idx] li) as [ys fin]. simpl in *.
      constructor; [|exact IH].
      apply fits_all_full_and_within with length; [|exact Hfits].
      intros ->. destruct Hfits as (_ & _ & _ & _ & Hzero).
      rewrite (Hzero eq_refl) in Htest. change (len (@nil Z)) with 0 in Htest. lia.
Qed.

(** When the budget is not negative and none of the indices of the
    stream is longer than the budget, every batch yielded is non-empty
    and costs (size times longest member) at most [max_tokens]. *)
Theorem batches_full_and_within_budget (self : t) (B : list Z) :
  0 <= max_tokens self ->
  (forall idx l, In idx (sampler self) ->
                 getitem (sample_lengths self) idx = Some l ->
                 l <= max_tokens self) ->
  In B (fst (__iter__ self)) ->
  B <> [] /\
  exists ls m,
    lengths_of (sample_lengths self) B = Some ls /\
    py_max ls = Some m /\
    len B * m <= max_tokens self.
Proof.
  intros Hmt Hshort HB.
  assert (Hnil : fits_all self [] 0).
  { exists []. repeat split; [constructor | intros H; contradiction]. }
  pose proof (loop_full_and_within self (sampler self) Hmt Hshort [] 0 Hnil) as Hall.
  unfold __iter__ in HB.
  destruct (loop self (sampler self) [] 0) as [ys fin]. simpl in *.
  rewrite Forall_forall in Hall. exact (Hall B HB).
Qed.

Lemma batches_full_and_within_budget_witness :
  In [0; 1] (fst (__iter__ short_lengths)) /\
  [0; 1] <> [] /\
  exists ls m,
    lengths_of (sample_lengths short_lengths) [0; 1] = Some ls /\
    py_max ls = Some m /\
    len [0; 1] * m <= max_tokens short_lengths.
Proof.
  split; [simpl; auto|].
  apply (batches_full_and_within_budget short_lengths [0; 1]).
  - simpl. lia.
  - intros idx l [<-|[<-|[<-|[<-|[]]]]] H; vm_compute in H;
      injection H as <-; simpl; lia.
  - simpl. auto.
Defined.




End ApproxBatchSamplerMore.

(** * More on SortishSampler: what a pass returns *)

Module SortishSamplerMore.
Import SliceFacts BucketFacts NumpyModels SortishSampler SortishSamplerFacts.

Lemma at_position_incl {A} (l : list A) (p : Z) : incl (at_position l p) l.
Proof.
  unfold at_position. destruct (p <? 0); [intros x []|].
  destruct (nth_error l (Z.to_nat p)) as [y|] eqn:E; [|intros x []].
  intros x [<-|[]]. eapply nth_error_In. exact E.
Qed.

Lemma selected_incl {A} (l : list A) (f : nat -> Z) (ks : list nat) :
  incl (flat_map (fun k => at_position l (f k)) ks) l.
Proof.
  intros x Hx. apply in_flat_map in Hx as (k & _ & Hk).
  exact (at_position_incl l (f k) x Hk).
Qed.

Lemma py_slice_incl {A} (l sh : list A) (start stop step : Z) :
  py_slice l start stop step = Some sh -> incl sh l.
Proof.
  unfold py_slice. destruct (step =? 0); [discriminate|].
  intros H. injection H as <-. apply selected_incl.
Qed.

Lemma py_slice2_incl {A} (l : list A) (start stop : Z) :
  incl (py_slice2 l start stop) l.
Proof. unfold py_slice2. apply selected_incl. Qed.

Lemma py_slice_nil {A} (start stop step : Z) :
  step <> 0 -> py_slice (@nil A) start stop step = Some [].
Proof.
  intros Hstep. unfold py_slice.
  destruct (Z.eqb_spec step 0) as [E|_]; [contradiction|].
  f_equal. apply incl_l_nil. apply selected_incl.
Qed.


(** What [subsample] returns is taken from [indices] and has
    [num_samples] elements. *)
Lemma subsample_inr (self : t) (indices l : list nat) :
  subsample self indices = inr l ->
  incl l indices /\ len l = num_samples self.
Proof.
  unfold subsample.
  destruct (len (pad self indices) =? total_size self); [|discriminate].
  destruct (py_slice (pad self indices) (rank self) (total_size self)
                     (num_replicas self)) as [sh|] eqn:Hslice; [|discriminate].
  destruct (Z.eqb_spec (len sh) (num_samples self)) as [E|E]; [|discriminate].
  intros H. injection H as <-. split; [|exact E].
  intros x Hx. apply (py_slice_incl _ _ _ _ _ Hslice) in Hx.
  unfold pad in Hx. apply in_app_or in Hx as [Hx|Hx]; [exact Hx|].
  exact (py_slice2_incl _ _ _ x Hx).
Qed.



Lemma ceil_div_zero (b : Z) : ceil_div 0 b = 0.
Proof. unfold ceil_div. change (- 0) with 0. now rewrite Zdiv_0_l. Qed.

Lemma In_chunk {A} (l : list A) (a b : nat) (x : A) :
  In x (firstn b (skipn a l)) ->
  exists p, (a <= p < a + b)%nat /\ nth_error l p = Some x.
Proof.
  intros Hx. apply In_nth_error in Hx as [q Hq].
  rewrite nth_error_firstn in Hq.
  destruct (Nat.ltb_spec q b) as [Hlt|]; [|discriminate].
  rewrite nth_error_skipn in Hq. exists (a + q)%nat. split; [lia | exact Hq].
Qed.

Lemma same_buckets_nil (d : list (list nat)) : same_buckets d [] -> d = [].
Proof.
  intros (l & Hperm & Hall). inversion Hall; subst.
  now apply Permutation_sym, Permutation_nil in Hperm.
Qed.

Section WithNumpy.
Context {np : Numpy} {contract : NumpyContract np}.

Lemma iter_inr (self : t) (g : RandomState) (l : list nat) :
  fst (fst (__iter__ self g)) = inr l ->
  exists g0,
    seed (epoch self) = Some g0 /\
    subsample self (flatten (fst (shuffle_data g0 (data self)))) = inr l.
Proof.
  intros H. destruct (seed (epoch self)) as [g0|] eqn:Hseed.
  - exists g0. split; [reflexivity|].
    now rewrite (iter_seeded self g g0 Hseed) in H.
  - unfold __iter__ in H. rewrite Hseed in H. discriminate.
Qed.

(** Every sequence a pass returns has exactly [__len__()] indices, and
    each of them is an index of the dataset, [0 <= i < N]: on a sampler
    constructed with a positive bucket size, for any number of
    replicas and any rank, after any earlier calls. *)
Theorem returned_indices_valid (sequence_lengths : list Z)
        (bucket_size num_replicas rank : Z) (self0 self : t)
        (g : RandomState) (l : list nat) :
  0 < bucket_size ->
  __init__ sequence_lengths bucket_size num_replicas rank = inr self0 ->
  reachable self0 self ->
  fst (fst (__iter__ self g)) = inr l ->
  len l = __len__ self /\
  Forall (fun i => (i < length sequence_lengths)%nat) l.
Proof.
  intros Hbs Hinit Hreach Hiter.
  apply iter_inr in Hiter as (g0 & Hseed & Hsub).
  apply subsample_inr in Hsub as [Hincl Hlen]. split; [exact Hlen|].
  pose proof (flatten_shuffled_Permutation _ _ _ _ _ _ g0 Hbs Hinit Hreach)
    as Hperm.
  apply Forall_forall. intros i Hi. apply Hincl in Hi.
  apply (Permutation_in _ Hperm), in_seq in Hi. lia.
Qed.


(** An empty dataset: whatever the bucket size, the number of replicas
    and the rank the constructor accepts, every pass with an accepted
    seed returns the empty sequence. *)
Theorem empty_dataset (bucket_size num_replicas rank : Z) (self0 self : t)
        (g g0 : RandomState) :
  __init__ [] bucket_size num_replicas rank = inr self0 ->
  reachable self0 self ->
  seed (epoch self) = Some g0 ->
  fst (fst (__iter__ self g)) = inr [].
Proof.
  intros Hinit Hreach Hseed.
  assert (Hargsort : argsort [] = []).
  { pose proof (argsort_Permutation []) as H. simpl in H.
    now apply Permutation_sym, Permutation_nil in H. }
  destruct (reachable_fields _ _ Hreach) as (Fnr & Fns & _ & Frk & Fts).
  pose proof (reachable_same_buckets _ _ Hreach) as Hsame.
  apply init_inr in Hinit as (Hnr & _ & ->).
  cbn [data SortishSampler.num_replicas num_samples SortishSampler.rank
       total_size] in *.
  rewrite Hargsort in *. change (len (@nil nat)) with 0 in *.
  rewrite !ceil_div_zero in *. change (buckets_of [] bucket_size 0) with
    (@nil (list nat)) in Hsame. apply same_buckets_nil in Hsame.
  rewrite (iter_seeded self g g0 Hseed). cbn [fst]. rewrite Hsame.
  pose proof (shuffle_data_same_buckets g0 []) as H.
  apply same_buckets_nil in H. rewrite H.
  unfold subsample, flatten, pad. cbn [concat].
  rewrite Fts, Fnr, Fns. cbn [Z.mul].
  change (py_slice2 (@nil nat) 0 (0 - len (@nil nat))) with (@nil nat).
  cbn [app]. change (len (@nil nat) =? 0) with true. cbn iota.
  rewrite py_slice_nil by exact Hnr. reflexivity.
Qed.

(** The stored buckets are intervals of the length order, whatever has
    been shuffled: they can be lined up so that every sequence of an
    earlier bucket is no longer than every sequence of a later one. *)
Theorem buckets_are_length_intervals (sequence_lengths : list Z)
        (bucket_size num_replicas rank : Z) (self0 self : t) :
  0 < bucket_size ->
  __init__ sequence_lengths bucket_size num_replicas rank = inr self0 ->
  reachable self0 self ->
  exists buckets,
    Permutation (data self) buckets /\
    forall k k' b b' i j,
      (k < k')%nat ->
      nth_error buckets k = Some b -> nth_error buckets k' = Some b' ->
      In i b -> In j b' ->
      key sequence_lengths i <= key sequence_lengths j.
Proof.
  intros Hbs Hinit Hreach.
  destruct (reachable_same_buckets _ _ Hreach) as (l & Hperm & Hall).
  apply init_inr in Hinit as (_ & _ & ->). cbn [data] in Hall.
  rewrite buckets_of_chunks in Hall by exact Hbs.
  exists l. split; [exact Hperm|].
  intros k k' b b' i j Hkk Hb Hb' Hi Hj.
  apply Forall2_flip in Hall.
  destruct (Forall2_nth_error _ _ _ Hall k b Hb) as (o & Ho & Hbo).
  destruct (Forall2_nth_error _ _ _ Hall k' b' Hb') as (o' & Ho' & Hbo').
  cbn beta in Hbo, Hbo'.
  unfold range in Ho, Ho'. rewrite nth_error_map, nth_error_seq in Ho, Ho'.
  destruct (Nat.ltb_spec k (Z.to_nat
             (ceil_div (len (argsort sequence_lengths)) bucket_size)));
    [|discriminate].
  destruct (Nat.ltb_spec k' (Z.to_nat
             (ceil_div (len (argsort sequence_lengths)) bucket_size)));
    [|discriminate].
  cbn in Ho, Ho'. injection Ho as <-. injection Ho' as <-.
  apply (Permutation_in _ Hbo), In_chunk in Hi as (p & Hp & Hpi).
  apply (Permutation_in _ Hbo'), In_chunk in Hj as (q & Hq & Hqj).
  apply (StronglySorted_nth_error _ _ (argsort_sorted sequence_lengths)
                                  p q i j Hpi Hqj).
  nia.
Qed.

End WithNumpy.

Lemma returned_indices_valid_witness :
  len [5; 4; 7; 0]%nat = __len__ scenario_C /\
  Forall (fun i => (i < length scenario_C_lengths)%nat) [5; 4; 7; 0]%nat.
Proof.
  apply (@returned_indices_valid numpy_model numpy_model_contract
           scenario_C_lengths 3 3 1 scenario_C scenario_C 0 [5; 4; 7; 0]%nat).
  - lia.
  - reflexivity.
  - apply reach_init.
  - reflexivity.
Defined.


Lemma empty_dataset_witness :
  fst (fst (@__iter__ numpy_model empty_sampler 0)) = inr [].
Proof.
  apply (@empty_dataset numpy_model numpy_model_contract 3 2 1
           empty_sampler empty_sampler 0 0).
  - reflexivity.
  - apply reach_init.
  - reflexivity.
Defined.

Lemma buckets_are_length_intervals_witness :
  let self := snd (fst (@__iter__ numpy_model (set_epoch scenario_A_pairs 3) 0)) in
  exists buckets,
    Permutation (data self) buckets /\
    forall k k' b b' i j,
      (k < k')%nat ->
      nth_error buckets k = Some b -> nth_error buckets k' = Some b' ->
      In i b -> In j b' ->
      key [5; 1; 2; 8; 3] i <= key [5; 1; 2; 8; 3] j.
Proof.
  apply (@buckets_are_length_intervals numpy_model numpy_model_contract
           [5; 1; 2; 8; 3] 2 1 0 scenario_A_pairs).
  - lia.
  - reflexivity.
  - apply (@reach_iter numpy_model), reach_set_epoch, reach_init.
Defined.


End SortishSamplerMore.

(** * Padding a batch of token rows *)

Module PadFacts.

Lemma skipn_repeat {A} (x : A) (k n : nat) :
  skipn k (repeat x n) = repeat x (n - k).
Proof.
  revert n. induction k as [|k IH]; intros n; simpl.
  - now rewrite Nat.sub_0_r.
  - destruct n; simpl; [reflexivity | apply IH].
Qed.

Lemma assign_prefix_next (done todo : list (list Z)) (width : nat)
      (value : Z) (t : list Z) :
  (length t <= width)%nat ->
  assign_prefix (done ++ repeat value width :: todo) (length done) t
  = inr ((done ++ [padded width value t]) ++ todo).
Proof.
  intros Hfit. unfold assign_prefix.
  rewrite nth_error_app2 by lia. rewrite Nat.sub_diag. simpl nth_error.
  cbv iota beta. rewrite repeat_length.
  destruct (Nat.leb_spec (length t) width) as [_|]; [|lia].
  rewrite firstn_app, firstn_all, Nat.sub_diag. simpl firstn.
  rewrite app_nil_r.
  replace (S (length done)) with (length done + 1)%nat by lia.
  rewrite skipn_app, (skipn_all2 done) by lia.
  replace (length done + 1 - length done)%nat with 1%nat by lia.
  simpl skipn. rewrite skipn_repeat, <- app_assoc. reflexivity.
Qed.

Lemma fill_rows_from (width : nat) (value : Z) (todo : list (list Z)) :
  Forall (fun t => (length t <= width)%nat) todo ->
  forall done,
    fill_rows (done ++ repeat (repeat value width) (length todo))
              (combine (seq (length done) (length todo)) todo)
    = inr (done ++ map (padded width value) todo).
Proof.
  induction 1 as [|t todo Ht _ IH]; intros done; simpl.
  - reflexivity.
  - rewrite (assign_prefix_next done _ width value t Ht).
    specialize (IH (done ++ [padded width value t])).
    rewrite length_app in IH. simpl in IH.
    replace (length done + 1)%nat with (S (length done)) in IH by lia.
    rewrite IH, <- app_assoc. reflexivity.
Qed.

Lemma py_max_bounds (x : Z) (r : list Z) :
  Forall (fun l => l <= fold_left Z.max r x) (x :: r) /\
  In (fold_left Z.max r x) (x :: r).
Proof.
  revert x. induction r as [|y r IH]; intros x; simpl.
  - split; [constructor; [lia | constructor] | now left].
  - destruct (IH (Z.max x y)) as [Hall Hin].
    inversion Hall as [|? ? Hxy Hr]; subst. split.
    + constructor; [lia|]. constructor; [lia | exact Hr].
    + destruct Hin as [Hin|Hin]; [|now right; right].
      rewrite <- Hin.
      destruct (Z.max_spec x y) as [[_ E]|[_ E]]; rewrite E.
      * right. now left.
      * now left.
Qed.

(** [_pad] in closed form: each row followed by as many copies of
    [value] as it takes to reach the longest row. *)
Lemma pad_closed_form (tokenized : list (list Z)) (value max_len : Z) :
  py_max (map len tokenized) = Some max_len ->
  _pad tokenized value
  = inr (map (padded (Z.to_nat max_len) value) tokenized) /\
  Forall (fun t => len t <= max_len) tokenized /\
  Exists (fun t => len t = max_len) tokenized.
Proof.
  intros Hmax. unfold _pad. rewrite Hmax.
  destruct tokenized as [|t0 rest]; [discriminate|].
  simpl in Hmax. injection Hmax as Hmax.
  destruct (py_max_bounds (len t0) (map len rest)) as [Hall Hin].
  rewrite Hmax in Hall, Hin.
  assert (Hle : Forall (fun t => len t <= max_len) (t0 :: rest)).
  { change (len t0 :: map len rest) with (map len (t0 :: rest)) in Hall.
    rewrite Forall_map in Hall. exact Hall. }
  split; [|split; [exact Hle|]].
  - unfold full, enumerate. change (0 + value) with value.
    apply (fill_rows_from (Z.to_nat max_len) value (t0 :: rest)) with (done := []).
    eapply Forall_impl; [|exact Hle]. intros t Ht. unfold len in Ht. lia.
  - change (len t0 :: map len rest) with (map len (t0 :: rest)) in Hin.
    apply in_map_iff in Hin as (t & Ht & Hin).
    apply Exists_exists. now exists t.
Qed.

(** On a batch that is not empty [_pad] never fails. The result has one
    row for each input row, all of the length of the longest one; a row
    starts with its input, so cutting it back to the input's length
    gives the input again, and everything after is [value]. *)
Theorem pad_rows (tokenized : list (list Z)) (value : Z) :
  tokenized <> [] ->
  exists output width,
    _pad tokenized value = inr output /\
    length output = length tokenized /\
    Exists (fun t => length t = width) tokenized /\
    forall r t, nth_error tokenized r = Some t ->
      exists row,
        nth_error output r = Some row /\
        length row = width /\
        firstn (length t) row = t /\
        skipn (length t) row = repeat value (width - length t).
Proof.
  intros Hne.
  destruct (py_max (map len tokenized)) as [max_len|] eqn:Hmax.
  2:{ destruct tokenized; [contradiction | discriminate]. }
  destruct (pad_closed_form tokenized value max_len Hmax) as (Hpad & Hle & Hex).
  exists (map (padded (Z.to_nat max_len) value) tokenized), (Z.to_nat max_len).
  split; [exact Hpad|]. split; [apply length_map|]. split.
  - eapply Exists_impl; [|exact Hex]. intros t Ht. unfold len in Ht. lia.
  - intros r t Hr. exists (padded (Z.to_nat max_len) value t).
    rewrite nth_error_map, Hr. split; [reflexivity|].
    assert (Ht : (length t <= Z.to_nat max_len)%nat).
    { rewrite Forall_forall in Hle. apply nth_error_In in Hr.
      specialize (Hle t Hr). unfold len in Hle. lia. }
    unfold padded. split; [|split].
    + rewrite length_app, repeat_length. lia.
    + rewrite firstn_app, firstn_all, Nat.sub_diag. simpl. apply app_nil_r.
    + rewrite skipn_app, skipn_all, Nat.sub_diag. reflexivity.
Qed.

Lemma pad_rows_witness :
  exists output width,
    _pad [[7; 8; 9]; [4]] 0 = inr output /\
    length output = 2%nat /\
    Exists (fun t => length t = width) [[7; 8; 9]; [4]] /\
    forall r t, nth_error [[7; 8; 9]; [4]] r = Some t ->
      exists row,
        nth_error output r = Some row /\
        length row = width /\
        firstn (length t) row = t /\
        skipn (length t) row = repeat 0 (width - length t).
Proof. apply (pad_rows [[7; 8; 9]; [4]] 0). discriminate. Defined.

(** [_pad] fails on the empty batch only, and then with the
    [ValueError] of [max()] on an empty sequence: the slice assignment
    of its loop always fits. *)
Theorem pad_fails_only_on_empty (tokenized : list (list Z)) (value : Z) (e : error) :
  _pad tokenized value = inl e <-> (tokenized = [] /\ e = Builtin ValueError).
Proof.
  split.
  - intros H. destruct tokenized as [|t0 rest].
    + split; [reflexivity|]. unfold _pad in H. simpl in H. congruence.
    + destruct (pad_closed_form (t0 :: rest) value _ eq_refl) as (Hpad & _).
      rewrite Hpad in H. discriminate.
  - intros [-> ->]. reflexivity.
Qed.

End PadFacts.

(** * Reading rows with FlatDataset *)

Module FlatDatasetFacts.
Import SliceFacts FlatDataset.

(** [l[:-1]] drops the last element, if there is one. *)
Lemma py_slice2_drop_last {A} (l : list A) :
  py_slice2 l 0 (-1) = firstn (length l - 1) l.
Proof.
  unfold py_slice2.
  assert (Hs : adjust_index (len l) 0 1 = 0).
  { unfold adjust_index, len.
    destruct (Z.ltb_spec 0 0); [lia|].
    destruct (Z.leb_spec (Z.of_nat (length l)) 0);
      destruct (Z.ltb_spec 1 0); lia. }
  assert (He : adjust_index (len l) (-1) 1 = Z.max 0 (len l - 1)).
  { unfold adjust_index, len.
    destruct (Z.ltb_spec (-1) 0); [|lia].
    destruct (Z.ltb_spec (-1 + Z.of_nat (length l)) 0);
      destruct (Z.ltb_spec 1 0); lia. }
  rewrite Hs, He, slice_length_one. unfold range.
  set (c := Z.to_nat (Z.max 0 (Z.max 0 (len l - 1) - 0))).
  assert (Hc : c = (length l - 1)%nat) by (unfold c, len; lia).
  destruct (selected_in_range l (fun k => 0 + Z.of_nat k) c) as [Hlen Hnth].
  { intros k Hk. unfold len. lia. }
  apply nth_error_ext. intros q. rewrite nth_error_firstn.
  destruct (Nat.ltb_spec q (length l - 1)) as [Hq|Hq].
  - rewrite (Hnth q ltac:(lia)). f_equal. lia.
  - apply nth_error_None. lia.
Qed.

Lemma drop_last_snoc {A} (l : list A) (x : A) :
  py_slice2 (l ++ [x]) 0 (-1) = l.
Proof.
  rewrite py_slice2_drop_last, length_app. simpl.
  replace (length l + 1 - 1)%nat with (length l) by lia.
  rewrite firstn_app, firstn_all, Nat.sub_diag. simpl. apply app_nil_r.
Qed.

Lemma drop_last_incl {A} (l : list A) : incl (py_slice2 l 0 (-1)) l.
Proof.
  rewrite py_slice2_drop_last. intros x Hx.
  rewrite <- (firstn_skipn (length l - 1) l). apply in_or_app. now left.
Qed.

(** A line read is free of line ends but for the newline it may end
    with. *)
Lemma readline_shape (rest : list ascii) :
  exists body,
    Forall (fun c => is_terminator c = false) body /\
    (readline rest = body ++ [newline] \/ readline rest = body).
Proof.
  induction rest as [|c rest (body & Hbody & IH)]; simpl.
  - exists []. split; [constructor | now right].
  - destruct (is_terminator c) eqn:E.
    + exists []. split; [constructor | now left].
    + exists (c :: body). split; [now constructor|].
      destruct IH as [-> | ->]; [now left | now right].
Qed.

Lemma readline_terminated (line post : list ascii) (t : ascii) :
  Forall (fun c => is_terminator c = false) line ->
  is_terminator t = true ->
  readline (line ++ t :: post) = line ++ [newline].
Proof.
  intros Hline Ht. induction Hline as [|c line Hc _ IH]; simpl.
  - now rewrite Ht.
  - now rewrite Hc, IH.
Qed.

Lemma readline_unterminated (line : list ascii) :
  Forall (fun c => is_terminator c = false) line ->
  readline line = line.
Proof.
  induction 1 as [|c line Hc _ IH]; simpl; [reflexivity|].
  now rewrite Hc, IH.
Qed.

Lemma split_not_nil (sep : ascii) (s : list ascii) : split sep s <> [].
Proof.
  induction s as [|c r IH]; simpl; [discriminate|].
  destruct (Ascii.eqb c sep); [discriminate|].
  destruct (split sep r); [contradiction | discriminate].
Qed.

(** The fields of a split hold characters of the string, and none of
    them the separator. *)
Lemma split_fields (sep : ascii) (s : list ascii) :
  Forall (fun field => Forall (fun c => c <> sep /\ In c s) field) (split sep s).
Proof.
  induction s as [|c r IH]; simpl.
  - repeat constructor.
  - assert (IH' : Forall (fun field =>
                    Forall (fun x => x <> sep /\ (c = x \/ In x r)) field)
                    (split sep r)).
    { eapply Forall_impl; [|exact IH]. intros field Hf.
      eapply Forall_impl; [|exact Hf]. intros x [H1 H2]. auto. }
    destruct (Ascii.eqb_spec c sep) as [E|E].
    + constructor; [constructor | exact IH'].
    + destruct (split sep r) as [|field fields]; [repeat constructor; auto|].
      inversion IH' as [|? ? Hfield Hfields]; subst.
      constructor; [|exact Hfields]. constructor; [auto | exact Hfield].
Qed.

(** Splitting what [join] put together gives the fields back, when
    there is at least one field and none holds the separator. *)
Lemma split_join (sep : ascii) (fields : list (list ascii)) :
  fields <> [] ->
  Forall (Forall (fun c => c <> sep)) fields ->
  split sep (join sep fields) = fields.
Proof.
  intros Hne Hall. induction Hall as [|field rest Hfield Hrest IH];
    [contradiction|].
  clear Hne. destruct rest as [|field' rest'].
  - simpl. clear IH Hrest.
    induction Hfield as [|c field Hc _ IHf]; simpl; [reflexivity|].
    destruct (Ascii.eqb_spec c sep); [contradiction|]. now rewrite IHf.
  - specialize (IH ltac:(discriminate)).
    change (join sep (field :: field' :: rest'))
      with (field ++ sep :: join sep (field' :: rest')).
    remember (join sep (field' :: rest')) as tail eqn:Htail.
    induction Hfield as [|c field Hc _ IHf]; cbn [app split].
    + rewrite Ascii.eqb_refl. now rewrite IH.
    + destruct (Ascii.eqb_spec c sep); [contradiction|]. now rewrite IHf.
Qed.

Lemma join_plain (fields : list (list ascii)) :
  Forall (Forall plain) fields ->
  Forall (fun c => is_terminator c = false) (join comma fields).
Proof.
  induction 1 as [|field rest Hfield _ IH]; simpl; [constructor|].
  assert (Hf : Forall (fun c => is_terminator c = false) field)
    by (eapply Forall_impl; [|exact Hfield]; intros c [_ H]; exact H).
  destruct rest; [exact Hf|].
  apply Forall_app. split; [exact Hf|].
  constructor; [reflexivity | exact IH].
Qed.

Lemma pick_incl {A} (line : list A) (cols : list Z) (fields : list A) :
  pick line cols = inr fields -> incl fields line.
Proof.
  revert fields. induction cols as [|i rest IH]; simpl; intros fields H.
  - injection H as <-. intros x [].
  - destruct (getitem line i) as [x|] eqn:Hx; [|discriminate].
    destruct (pick line rest) as [e|xs]; [discriminate|].
    injection H as <-. intros y [<-|Hy]; [|now apply (IH xs)].
    unfold getitem in Hx.
    destruct ((0 <=? i) && (i <? len line)); [now apply nth_error_In in Hx|].
    destruct ((- len line <=? i) && (i <? 0)); [|discriminate].
    now apply nth_error_In in Hx.
Qed.

(** The local [line] of [__getitem__] after the split. *)
Lemma getitem_fields open (self : t) (idx offset : Z) (bytes : list ascii) :
  open (fpath self) = Some bytes ->
  getitem (offsets self) idx = Some offset ->
  0 <= offset ->
  __getitem__ open self idx
  = pick (split comma
                (py_slice2 (readline (skipn (Z.to_nat offset) bytes)) 0 (-1)))
         (cols self).
Proof.
  intros Hopen Hoff Hpos. unfold __getitem__. rewrite Hopen, Hoff.
  destruct (Z.ltb_spec offset 0); [lia | reflexivity].
Qed.

(** No field [__getitem__] returns holds a comma or a line end. *)
Theorem fields_are_plain open (self : t) (idx : Z) (fields : list (list ascii)) :
  __getitem__ open self idx = inr fields ->
  Forall (Forall plain) fields.
Proof.
  unfold __getitem__.
  destruct (open (fpath self)) as [bytes|]; [|discriminate].
  destruct (getitem (offsets self) idx) as [offset|]; [|discriminate].
  destruct (offset <? 0); [discriminate|].
  set (rest := skipn (Z.to_nat offset) bytes).
  intros Hpick. apply pick_incl in Hpick.
  assert (Hline : Forall (fun c => is_terminator c = false)
                         (py_slice2 (readline rest) 0 (-1))).
  { destruct (readline_shape rest) as (body & Hbody & [E|E]); rewrite E.
    - now rewrite drop_last_snoc.
    - apply Forall_forall. intros c Hc. apply drop_last_incl in Hc.
      rewrite Forall_forall in Hbody. now apply Hbody. }
  pose proof (split_fields comma (py_slice2 (readline rest) 0 (-1))) as Hsplit.
  apply Forall_forall. intros field Hfield. apply Hpick in Hfield.
  rewrite Forall_forall in Hsplit. specialize (Hsplit field Hfield).
  eapply Forall_impl; [|exact Hsplit]. intros c [Hc Hin].
  split; [exact Hc|]. rewrite Forall_forall in Hline. now apply Hline.
Qed.

(** Reading a row back: when the offset of [idx] is where a line starts
    that holds the fields of a row joined by commas and ends with a
    line end, [__getitem__] returns the fields at the columns [cols]
    (or raises [IndexError] for a column the row does not have). *)
Theorem reads_back_fields open (self : t) (idx : Z)
        (before after : list ascii) (fields : list (list ascii)) (t : ascii) :
  open (fpath self) = Some (before ++ join comma fields ++ t :: after) ->
  getitem (offsets self) idx = Some (len before) ->
  is_terminator t = true ->
  fields <> [] ->
  Forall (Forall plain) fields ->
  __getitem__ open self idx = pick fields (cols self).
Proof.
  intros Hopen Hoff Ht Hne Hplain.
  rewrite (getitem_fields open self idx (len before) _ Hopen Hoff)
    by (unfold len; lia).
  unfold len. rewrite Nat2Z.id.
  rewrite skipn_app, skipn_all, Nat.sub_diag. simpl skipn. cbn [app].
  rewrite (readline_terminated _ _ t (join_plain fields Hplain) Ht).
  rewrite drop_last_snoc, split_join; [reflexivity | exact Hne |].
  eapply Forall_impl; [|exact Hplain]. intros field Hf.
  eapply Forall_impl; [|exact Hf]. intros c [Hc _]. exact Hc.
Qed.

(** The last line of a file that does not end with a line end loses
    its last character: [[:-1]] takes it for the newline. *)
Theorem last_line_loses_a_character open (self : t) (idx : Z)
        (before line : list ascii) (c : ascii) :
  open (fpath self) = Some (before ++ line ++ [c]) ->
  getitem (offsets self) idx = Some (len before) ->
  Forall (fun x => is_terminator x = false) (line ++ [c]) ->
  __getitem__ open self idx = pick (split comma line) (cols self).
Proof.
  intros Hopen Hoff Hline.
  rewrite (getitem_fields open self idx (len before) _ Hopen Hoff)
    by (unfold len; lia).
  unfold len. rewrite Nat2Z.id.
  rewrite skipn_app, skipn_all, Nat.sub_diag. simpl skipn. cbn [app].
  now rewrite (readline_unterminated _ Hline), drop_last_snoc.
Qed.

Lemma fields_are_plain_witness :
  __getitem__ open_two_rows second_column 0 = inr [["b"; "c"]%char] /\
  Forall (Forall plain) [["b"; "c"]%char].
Proof.
  split; [reflexivity|].
  apply (fields_are_plain open_two_rows second_column 0). reflexivity.
Defined.

Lemma reads_back_fields_witness :
  __getitem__ open_two_rows second_column 0
  = pick [["a"]; ["b"; "c"]]%char [1].
Proof.
  apply (reads_back_fields open_two_rows second_column 0
           [] ["d"; ","; "e"]%char [["a"]; ["b"; "c"]]%char newline).
  - reflexivity.
  - reflexivity.
  - reflexivity.
  - discriminate.
  - repeat constructor; discriminate.
Defined.

Lemma last_line_loses_a_character_witness :
  __getitem__ open_two_rows second_column 1
  = pick (split comma ["d"; ","]%char) [1] /\
  __getitem__ open_two_rows second_column 1 = inr [[]].
Proof.
  split; [|reflexivity].
  apply (last_line_loses_a_character open_two_rows second_column 1
           ["a"; ","; "b"; "c"; newline]%char ["d"; ","]%char "e"%char).
  - reflexivity.
  - reflexivity.
  - repeat constructor.
Defined.

End FlatDatasetFacts.

(** * The collaters *)

Module CollaterFacts.
Import PadFacts.

Lemma bind_inr {A B} (x : error + A) (f : A -> error + B) (b : B) :
  bind x f = inr b -> exists a, x = inr a /\ f a = inr b.
Proof. destruct x as [e|a]; simpl; [discriminate | eauto]. Qed.

Ltac bind_inv H x Hx :=
  apply bind_inr in H; destruct H as (x & Hx & H).

Lemma map_err_Forall2 {A B} (f : A -> error + B) (l : list A) (out : list B) :
  map_err f l = inr out -> Forall2 (fun a b => f a = inr b) l out.
Proof.
  revert out. induction l as [|a r IH]; simpl; intros out H.
  - injection H as <-. constructor.
  - bind_inv H b Hb. bind_inv H bs Hbs. injection H as <-.
    constructor; [exact Hb | now apply IH].
Qed.

Lemma map_err_app {A B} (f : A -> error + B) (l1 l2 : list A) (out : list B) :
  map_err f (l1 ++ l2) = inr out ->
  exists out1 out2,
    map_err f l1 = inr out1 /\ map_err f l2 = inr out2 /\ out = out1 ++ out2.
Proof.
  revert out. induction l1 as [|a r IH]; simpl; intros out H.
  - exists [], out. auto.
  - bind_inv H b Hb. bind_inv H bs Hbs. injection H as <-.
    destruct (IH bs Hbs) as (o1 & o2 & H1 & H2 & ->).
    exists (b :: o1), o2. rewrite Hb, H1. simpl. auto.
Qed.

Lemma Forall2_nth {A B} (P : A -> B -> Prop) (l : list A) (l' : list B) :
  Forall2 P l l' ->
  forall r a b, nth_error l r = Some a -> nth_error l' r = Some b -> P a b.
Proof.
  induction 1 as [|x y l l' Hxy _ IH]; intros r a b Ha Hb.
  - destruct r; discriminate.
  - destruct r as [|r]; simpl in *.
    + injection Ha as <-. injection Hb as <-. exact Hxy.
    + now apply (IH r).
Qed.

(** [_pad] on rows that there are. *)
Lemma pad_inr (rows : list (list Z)) (value : Z) (output : list (list Z)) :
  _pad rows value = inr output ->
  exists width,
    py_max (map len rows) = Some (Z.of_nat width) /\
    output = map (padded width value) rows.
Proof.
  intros H. destruct (py_max (map len rows)) as [m|] eqn:Hmax.
  - destruct (pad_closed_form rows value m Hmax) as (Hpad & Hle & Hex).
    rewrite Hpad in H. injection H as <-.
    exists (Z.to_nat m). split; [|reflexivity]. f_equal.
    apply Exists_exists in Hex as (t & _ & Ht). unfold len in Ht. lia.
  - unfold _pad in H. rewrite Hmax in H. discriminate.
Qed.

Lemma py_max_Some_inj (l : list Z) (a b : nat) :
  py_max l = Some (Z.of_nat a) -> py_max l = Some (Z.of_nat b) -> a = b.
Proof. intros Ha Hb. rewrite Ha in Hb. injection Hb. lia. Qed.

Section WithLibraries.
Context {V T : Type}.
Variables PAD START STOP : list ascii.
Variable tensor : list V -> error + T.

(** What [LMCollater.__call__] returns, spelled out: the rows of
    [src] and [tgt] are the tokenized strings brought to a common
    width with [pad_idx], those of [mask] rows of ones brought to the
    width of [tgt] with zeros. *)
Lemma LM_call_inr (self : LMCollater.t) (batch : list (item V))
      (src tgt mask : list (list Z)) (data : list T) :
  LMCollater.__call__ PAD START STOP tensor self batch
  = inr (src, tgt, mask, data) ->
  exists src_tokens tgt_tokens pad_idx src_width tgt_width,
    map_err (tokenize (LMCollater.tokenizer self))
            (LMCollater.sources START STOP self (map sequence batch))
    = inr src_tokens /\
    map_err (tokenize (LMCollater.tokenizer self))
            (LMCollater.targets START STOP self (map sequence batch))
    = inr tgt_tokens /\
    pad_index (LMCollater.tokenizer self) PAD = inr pad_idx /\
    py_max (map len src_tokens) = Some (Z.of_nat src_width) /\
    py_max (map len tgt_tokens) = Some (Z.of_nat tgt_width) /\
    src = map (padded src_width pad_idx) src_tokens /\
    tgt = map (padded tgt_width pad_idx) tgt_tokens /\
    mask = map (fun t => padded tgt_width 0 (LMCollater.ones_like t)) tgt_tokens.
Proof.
  unfold LMCollater.__call__. destruct batch as [|it batch]; [discriminate|].
  set (sequences := map sequence (it :: batch)). intros H.
  bind_inv H src_tokens Hsrc. bind_inv H tgt_tokens Htgt.
  bind_inv H pad_idx Hpad. bind_inv H src' Hsrc'. bind_inv H tgt' Htgt'.
  bind_inv H mask' Hmask'. bind_inv H data' Hdata. injection H as <- <- <- <-.
  apply pad_inr in Hsrc' as (ws & Hws & ->).
  apply pad_inr in Htgt' as (wt & Hwt & ->).
  apply pad_inr in Hmask' as (wm & Hwm & ->).
  assert (Hlen : map len (map LMCollater.ones_like tgt_tokens) = map len tgt_tokens).
  { rewrite map_map. apply map_ext. intros t.
    unfold len, LMCollater.ones_like. now rewrite repeat_length. }
  rewrite Hlen in Hwm. pose proof (py_max_Some_inj _ _ _ Hwm Hwt) as ->.
  exists src_tokens, tgt_tokens, pad_idx, ws, wt.
  repeat split; try assumption. now rewrite map_map.
Qed.

(** The mask of [LMCollater] marks the tokens of the target: [tgt]
    and [mask] have one row for each item of the batch, of one width;
    a row of [tgt] is the tokenized target followed by the index of
    [PAD], and the row of [mask] has ones under the tokens and zeros
    under the padding. *)
Theorem mask_marks_target_tokens (self : LMCollater.t) (batch : list (item V))
        (src tgt mask : list (list Z)) (data : list T) :
  LMCollater.__call__ PAD START STOP tensor self batch
  = inr (src, tgt, mask, data) ->
  exists tokens pad_idx width,
    map_err (tokenize (LMCollater.tokenizer self))
            (LMCollater.targets START STOP self (map sequence batch))
    = inr tokens /\
    pad_index (LMCollater.tokenizer self) PAD = inr pad_idx /\
    length tokens = length batch /\
    Forall (fun t => (length t <= width)%nat) tokens /\
    tgt = map (fun t => t ++ repeat pad_idx (width - length t)) tokens /\
    mask = map (fun t => repeat 1 (length t) ++ repeat 0 (width - length t))
               tokens.
Proof.
  intros H.
  destruct (LM_call_inr self batch src tgt mask data H)
    as (st & tt & pad_idx & ws & wt & Hst & Htt & Hpad & Hws & Hwt & _ & -> & ->).
  exists tt, pad_idx, wt. repeat split; try assumption.
  - apply map_err_Forall2, Forall2_length in Htt. rewrite <- Htt.
    unfold LMCollater.targets. destruct (LMCollater.backwards self);
      now rewrite !length_map.
  - destruct (pad_closed_form tt pad_idx _ Hwt) as (_ & Hle & _).
    eapply Forall_impl; [|exact Hle]. intros t Ht. unfold len in Ht. lia.
  - apply map_ext. intros t. unfold padded, LMCollater.ones_like.
    now rewrite repeat_length.
Qed.

(** With a tokenizer that turns each character into one token, and
    [START] and [STOP] of one character each, [src] and [tgt] have the
    same shape and the target is the source moved one place to the
    left: over the length of the sequence, entry [c] of a row of [tgt]
    is entry [c + 1] of the row of [src]. *)
Theorem target_is_source_shifted (tok : ascii -> error + Z)
        (self : LMCollater.t) (batch : list (item V))
        (src tgt mask : list (list Z)) (data : list T) :
  (forall s, tokenize (LMCollater.tokenizer self) s = map_err tok s) ->
  length START = 1%nat -> length STOP = 1%nat ->
  LMCollater.__call__ PAD START STOP tensor self batch
  = inr (src, tgt, mask, data) ->
  forall r it row_s row_t,
    nth_error batch r = Some it ->
    nth_error src r = Some row_s ->
    nth_error tgt r = Some row_t ->
    length row_s = length row_t /\
    forall c, (c < length (sequence it))%nat ->
      nth_error row_t c = nth_error row_s (S c).
Proof.
  intros Htok Hstart Hstop H.
  destruct (LM_call_inr self batch src tgt mask data H)
    as (st & tt & pad_idx & ws & wt & Hst & Htt & Hpad & Hws & Hwt & -> & -> & _).
  apply map_err_Forall2 in Hst, Htt.
  (* each row: a head of one token, the body, a tail of one token *)
  assert (Hrows : forall r it ts tt',
             nth_error batch r = Some it ->
             nth_error st r = Some ts -> nth_error tt r = Some tt' ->
             exists h body e,
               ts = h :: body /\ tt' = body ++ [e] /\
               length body = length (sequence it)).
  { intros r it ts tt' Hit Hts Htt'.
    assert (Hseq : nth_error (map sequence batch) r = Some (sequence it))
      by (rewrite nth_error_map, Hit; reflexivity).
    unfold LMCollater.sources, LMCollater.targets in Hst, Htt.
    assert (Hone : forall (s : list ascii) out,
               length s = 1%nat -> map_err tok s = inr out ->
               exists k, out = [k]).
    { intros s out Hs Hout. apply map_err_Forall2, Forall2_length in Hout.
      rewrite Hs in Hout. destruct out as [|k [|]]; try discriminate. eauto. }
    destruct (LMCollater.backwards self).
    - pose proof (Forall2_nth _ _ _ Hst r (STOP ++ rev (sequence it)) ts
                    ltac:(rewrite nth_error_map, Hseq; reflexivity) Hts) as H1.
      pose proof (Forall2_nth _ _ _ Htt r (rev (sequence it) ++ START) tt'
                    ltac:(rewrite nth_error_map, Hseq; reflexivity) Htt') as H2.
      cbn beta in H1, H2. rewrite Htok in H1, H2.
      apply map_err_app in H1 as (h & b1 & Hh & Hb1 & ->).
      apply map_err_app in H2 as (b2 & e & Hb2 & He & ->).
      rewrite Hb1 in Hb2. injection Hb2 as <-.
      destruct (Hone _ _ Hstop Hh) as [k ->].
      destruct (Hone _ _ Hstart He) as [k' ->].
      exists k, b1, k'. repeat split.
      apply map_err_Forall2, Forall2_length in Hb1.
      now rewrite <- Hb1, length_rev.
    - pose proof (Forall2_nth _ _ _ Hst r (START ++ sequence it) ts
                    ltac:(rewrite nth_error_map, Hseq; reflexivity) Hts) as H1.
      pose proof (Forall2_nth _ _ _ Htt r (sequence it ++ STOP) tt'
                    ltac:(rewrite nth_error_map, Hseq; reflexivity) Htt') as H2.
      cbn beta in H1, H2. rewrite Htok in H1, H2.
      apply map_err_app in H1 as (h & b1 & Hh & Hb1 & ->).
      apply map_err_app in H2 as (b2 & e & Hb2 & He & ->).
      rewrite Hb1 in Hb2. injection Hb2 as <-.
      destruct (Hone _ _ Hstart Hh) as [k ->].
      destruct (Hone _ _ Hstop He) as [k' ->].
      exists k, b1, k'. repeat split.
      apply map_err_Forall2, Forall2_length in Hb1. now rewrite <- Hb1. }
  (* the two widths agree, row by row *)
  assert (Hlens : map len st = map len tt).
  { pose proof (Forall2_length Hst) as L1. pose proof (Forall2_length Htt) as L2.
    unfold LMCollater.sources, LMCollater.targets in L1, L2.
    assert (L : length st = length tt).
    { destruct (LMCollater.backwards self); rewrite !length_map in L1, L2; lia. }
    assert (Lb : length st = length batch).
    { destruct (LMCollater.backwards self); rewrite !length_map in L1; lia. }
    apply nth_error_ext. intros r. rewrite !nth_error_map.
    destruct (nth_error st r) as [ts|] eqn:Ets;
      destruct (nth_error tt r) as [tt'|] eqn:Ett; simpl.
    - destruct (nth_error batch r) as [it|] eqn:Eit.
      + destruct (Hrows r it ts tt' Eit Ets Ett) as (h & b & e & -> & -> & _).
        f_equal. unfold len. rewrite length_app. simpl. lia.
      + apply nth_error_None in Eit.
        assert (nth_error st r <> None) by congruence.
        apply nth_error_Some in H0. lia.
    - apply nth_error_None in Ett.
      assert (nth_error st r <> None) by congruence.
      apply nth_error_Some in H0. lia.
    - apply nth_error_None in Ets.
      assert (nth_error tt r <> None) by congruence.
      apply nth_error_Some in H0. lia.
    - reflexivity. }
  rewrite Hlens in Hws. pose proof (py_max_Some_inj _ _ _ Hws Hwt) as ->.
  intros r it row_s row_t Hit Hrs Hrt.
  rewrite nth_error_map in Hrs, Hrt.
  destruct (nth_error st r) as [ts|] eqn:Ets; [|discriminate].
  destruct (nth_error tt r) as [tt'|] eqn:Ett; [|discriminate].
  injection Hrs as <-. injection Hrt as <-.
  destruct (Hrows r it ts tt' Hit Ets Ett) as (h & b & e & -> & -> & Hb).
  destruct (pad_closed_form tt pad_idx _ Hwt) as (_ & Hle & _).
  rewrite Forall_forall in Hle. specialize (Hle _ (nth_error_In _ _ Ett)).
  unfold len in Hle. rewrite length_app in Hle. simpl in Hle.
  unfold padded. split.
  - rewrite !length_app, !repeat_length. simpl. lia.
  - intros c Hc. rewrite <- Hb in Hc. simpl.
    rewrite <- app_assoc. rewrite !nth_error_app1 by lia. reflexivity.
Qed.

(** Padding changes nothing where stacking works: when the tokenized
    sequences all have one length, so that the collater without
    padding returns a result, the collater with padding returns the
    same one (given that [PAD] is in the alphabet). *)
Theorem padding_agrees_with_stacking (tokenizer : Tokenizer)
        (batch : list (item V)) (pad_idx : Z)
        (result : list (list Z) * list T) :
  pad_index tokenizer PAD = inr pad_idx ->
  SimpleCollater.__call__ PAD tensor
    {| SimpleCollater.pad := false; SimpleCollater.tokenizer := tokenizer |} batch
  = inr result ->
  SimpleCollater.__call__ PAD tensor
    {| SimpleCollater.pad := true; SimpleCollater.tokenizer := tokenizer |} batch
  = inr result.
Proof.
  intros Hpad. unfold SimpleCollater.__call__.
  destruct batch as [|it batch]; [discriminate|]. cbn [SimpleCollater.pad
    SimpleCollater.tokenizer]. intros H.
  bind_inv H tokens Htokens. bind_inv H stacked Hstack.
  rewrite Htokens. cbn [bind]. rewrite Hpad. cbn [bind].
  assert (Hsame : _pad tokens pad_idx = inr stacked).
  { unfold stack in Hstack. destruct tokens as [|t rest]; [discriminate|].
    destruct (forallb (fun t' => (length t' =? length t)%nat) rest) eqn:Hall;
      [|discriminate].
    injection Hstack as <-.
    assert (Heq : Forall (fun t' => length t' = length t) (t :: rest)).
    { constructor; [reflexivity|]. apply Forall_forall. intros t' Ht'.
      rewrite forallb_forall in Hall. now apply Nat.eqb_eq, Hall. }
    destruct (py_max (map len (t :: rest))) as [m|] eqn:Hmax; [|discriminate].
    destruct (pad_closed_form (t :: rest) pad_idx m Hmax) as (-> & _ & Hex).
    f_equal. rewrite <- (map_id (t :: rest)) at 2. apply map_ext_in.
    intros t' Ht'. unfold padded.
    apply Exists_exists in Hex as (t0 & Ht0 & Hm). unfold len in Hm.
    rewrite Forall_forall in Heq.
    rewrite (Heq t' Ht'), <- (Heq t0 Ht0).
    replace (Z.to_nat m - length t0)%nat with 0%nat by lia.
    apply app_nil_r. }
  rewrite Hsame. exact H.
Qed.

End WithLibraries.

Lemma mask_marks_target_tokens_witness :
  exists tokens pad_idx width,
    map_err (tokenize (LMCollater.tokenizer example_lm))
            (LMCollater.targets ["@"]%char ["*"]%char example_lm
                                (map sequence example_batch))
    = inr tokens /\
    pad_index (LMCollater.tokenizer example_lm) ["-"]%char = inr pad_idx /\
    length tokens = length example_batch /\
    Forall (fun t => (length t <= width)%nat) tokens /\
    [[0; 1; 2; 5]; [2; 5; 3; 3]]
    = map (fun t => t ++ repeat pad_idx (width - length t)) tokens /\
    [[1; 1; 1; 1]; [1; 1; 0; 0]]
    = map (fun t => repeat 1 (length t) ++ repeat 0 (width - length t)) tokens.
Proof.
  apply (@mask_marks_target_tokens Z (list Z) ["-"]%char ["@"]%char ["*"]%char
           example_tensor example_lm example_batch
           [[4; 0; 1; 2]; [4; 2; 3; 3]] [[0; 1; 2; 5]; [2; 5; 3; 3]]
           [[1; 1; 1; 1]; [1; 1; 0; 0]] [[1; 3]; [2; 4]]).
  reflexivity.
Defined.

Lemma target_is_source_shifted_witness :
  length [4; 0; 1; 2] = length [0; 1; 2; 5] /\
  forall c, (c < 3)%nat ->
    nth_error [0; 1; 2; 5] c = nth_error [4; 0; 1; 2] (S c).
Proof.
  apply (@target_is_source_shifted Z (list Z) ["-"]%char ["@"]%char ["*"]%char
           example_tensor example_tok example_lm example_batch
           [[4; 0; 1; 2]; [4; 2; 3; 3]] [[0; 1; 2; 5]; [2; 5; 3; 3]]
           [[1; 1; 1; 1]; [1; 1; 0; 0]] [[1; 3]; [2; 4]]
           ltac:(reflexivity) eq_refl eq_refl eq_refl
           0%nat {| sequence := ["A"; "C"; "G"]%char; outputs := [1; 2] |});
    reflexivity.
Defined.

Lemma padding_agrees_with_stacking_witness :
  SimpleCollater.__call__ ["-"]%char example_tensor
    {| SimpleCollater.pad := true;
       SimpleCollater.tokenizer := lookup_tokenizer example_alphabet |}
    equal_length_batch
  = inr ([[0; 1; 2]; [2; 1; 0]], [[1; 3]; [2; 4]]).
Proof.
  apply (@padding_agrees_with_stacking Z (list Z) ["-"]%char example_tensor
           (lookup_tokenizer example_alphabet) equal_length_batch 3);
    reflexivity.
Defined.

End CollaterFacts.

(** * Cropping in UniRefDataset *)

Module UniRefDatasetFacts.
Import SliceFacts FlatDatasetFacts UniRefDataset.

Section WithLibraries.
Context {G S : Type}.
Variable open : list ascii -> option (list ascii).
Variable choice : G -> Z -> Z * G.
Variable load_structure : t -> Z -> list ascii -> Z -> Z -> G -> (error + S) * G.

(** The crop. [np.random.choice(n)] draws from [0 .. n - 1]; with
    that, and [max_len] not negative, whatever [__getitem__] returns
    as the sequence is a run of the consensus line of the index: the
    whole line when it has no more than [max_len] characters, and
    otherwise exactly [max_len] characters starting at a position
    [start] with [start + max_len < len(line)], so that the last
    character of a line longer than [max_len] is never returned. *)
Theorem crop_within_line (self : t) (idx : Z) (g g' : G)
        (cropped : list ascii) (tensors : option S) :
  (forall g n, 0 < n -> 0 <= fst (choice g n) < n) ->
  0 <= max_len self ->
  __getitem__ open choice load_structure self idx g
  = (inr (cropped, tensors), g') ->
  exists i offset bytes start,
    getitem (indices self) idx = Some i /\
    getitem (offsets self) i = Some offset /\
    open (data_dir self ++ consensus_fasta) = Some bytes /\
    let line := py_slice2 (readline (skipn (Z.to_nat offset) bytes)) 0 (-1) in
    cropped = firstn (Z.to_nat (max_len self)) (skipn start line) /\
    len cropped = Z.min (len line) (max_len self) /\
    (len line <= max_len self -> cropped = line) /\
    (max_len self < len line ->
     Z.of_nat start + max_len self < len line).
Proof.
  intros Hchoice Hmax. unfold __getitem__.
  destruct (getitem (indices self) idx) as [i|] eqn:Ei; [|discriminate].
  destruct (getitem (offsets self) i) as [offset|] eqn:Eo; [|discriminate].
  destruct (open (data_dir self ++ consensus_fasta)) as [bytes|] eqn:Eb;
    [|discriminate].
  destruct (offset <? 0); [discriminate|].
  set (line := py_slice2 (readline (skipn (Z.to_nat offset) bytes)) 0 (-1)).
  assert (Hcrop : forall start stop : Z,
             0 <= start -> stop = start + max_len self \/
                           (start = 0 /\ stop = len line /\ len line <= max_len self) ->
             py_slice2 line start stop
             = firstn (Z.to_nat (max_len self)) (skipn (Z.to_nat start) line)).
  { intros start stop Hstart Hstop.
    rewrite <- (Z2Nat.id start Hstart) at 1.
    assert (0 <= stop) by (unfold len in *; lia).
    rewrite <- (Z2Nat.id stop) by assumption.
    rewrite py_slice2_firstn_skipn.
    destruct Hstop as [->|(-> & -> & Hle)].
    - f_equal. lia.
    - simpl skipn. unfold len in *. rewrite Nat2Z.id, Nat.sub_0_r.
      rewrite firstn_all. symmetry. apply firstn_all2. lia. }
  assert (Hfinish : forall (start stop : Z) (c : list ascii),
             0 <= start ->
             (stop = start + max_len self /\ start + max_len self < len line) \/
             (start = 0 /\ stop = len line /\ len line <= max_len self) ->
             py_slice2 line start stop = c ->
             exists i0 offset0 bytes0 start0,
               Some i = Some i0 /\
               getitem (offsets self) i0 = Some offset0 /\
               Some bytes = Some bytes0 /\
               let line0 :=
                 py_slice2 (readline (skipn (Z.to_nat offset0) bytes0)) 0 (-1) in
               c = firstn (Z.to_nat (max_len self)) (skipn start0 line0) /\
               len c = Z.min (len line0) (max_len self) /\
               (len line0 <= max_len self -> c = line0) /\
               (max_len self < len line0 ->
                Z.of_nat start0 + max_len self < len line0)).
  { intros start stop c Hstart Hstop <-.
    exists i, offset, bytes, (Z.to_nat start).
    split; [reflexivity|]. split; [exact Eo|]. split; [reflexivity|].
    cbv zeta. fold line.
    assert (Hres : py_slice2 line start stop
                   = firstn (Z.to_nat (max_len self))
                            (skipn (Z.to_nat start) line))
      by (apply Hcrop; [exact Hstart | tauto]).
    rewrite Hres. split; [reflexivity|].
    destruct Hstop as [[-> Hlt]|(-> & -> & Hle)].
    - repeat split; try lia.
      unfold len in *. rewrite length_firstn, length_skipn. lia.
    - simpl skipn.
      rewrite (firstn_all2 line) by (unfold len in *; lia).
      repeat split; lia. }
  destruct (Z.ltb_spec 0 (len line - max_len self)) as [Hlong|Hshort].
  - pose proof (Hchoice g (len line - max_len self) Hlong) as Hdraw.
    destruct (choice g (len line - max_len self)) as [start g1]. simpl in Hdraw.
    destruct (structure self).
    + destruct (load_structure self i line start (start + max_len self) g1)
        as [[e|s] g2]; [discriminate|].
      intros H. injection H as Hc _ _.
      apply (Hfinish start (start + max_len self)); [lia | left; lia | exact Hc].
    + intros H. injection H as Hc _ _.
      apply (Hfinish start (start + max_len self)); [lia | left; lia | exact Hc].
  - destruct (structure self).
    + destruct (load_structure self i line 0 (len line) g) as [[e|s] g2];
        [discriminate|].
      intros H. injection H as Hc _ _.
      apply (Hfinish 0 (len line)); [lia | right; lia | exact Hc].
    + intros H. injection H as Hc _ _.
      apply (Hfinish 0 (len line)); [lia | right; lia | exact Hc].
Qed.

End WithLibraries.

Lemma crop_within_line_witness :
  exists i offset bytes start,
    getitem (indices crop_to_three) 0 = Some i /\
    getitem (offsets crop_to_three) i = Some offset /\
    open_one_consensus (data_dir crop_to_three ++ consensus_fasta) = Some bytes /\
    let line := py_slice2 (readline (skipn (Z.to_nat offset) bytes)) 0 (-1) in
    ["K"; "V"; "L"]%char = firstn (Z.to_nat (max_len crop_to_three)) (skipn start line) /\
    len ["K"; "V"; "L"]%char = Z.min (len line) (max_len crop_to_three) /\
    (len line <= max_len crop_to_three -> ["K"; "V"; "L"]%char = line) /\
    (max_len crop_to_three < len line ->
     Z.of_nat start + max_len crop_to_three < len line).
Proof.
  apply (@crop_within_line Z unit open_one_consensus counter_choice no_structure
           crop_to_three 0 1 2 ["K"; "V"; "L"]%char None).
  - intros g n Hn. unfold counter_choice. simpl. apply Z.mod_pos_bound. lia.
  - simpl. lia.
  - reflexivity.
Defined.

End UniRefDatasetFacts.

(** * The cache of LMDBDataset *)

Module LMDBDatasetFacts.
Import LMDBDataset.

Lemma str_eqb_refl (a : list ascii) : str_eqb a a = true.
Proof.
  induction a as [|x a IH]; simpl; [reflexivity|].
  now rewrite Ascii.eqb_refl, IH.
Qed.

Lemma dict_setitem_new (d : list (list ascii * object)) (key : list ascii) (v : object) :
  dict_contains d key = false -> dict_setitem d key v = d ++ [(key, v)].
Proof.
  unfold dict_contains. induction d as [|[k w] d IH]; simpl; [reflexivity|].
  intros H. apply orb_false_iff in H as [Hk Hd].
  rewrite Hk. now rewrite IH.
Qed.

Lemma dict_contains_last (d : list (list ascii * object)) (key : list ascii) (v : object) :
  dict_contains (d ++ [(key, v)]) key = true.
Proof.
  unfold dict_contains. rewrite existsb_app. simpl.
  rewrite str_eqb_refl. now rewrite orb_true_r.
Qed.

Lemma in_range_true (index : Z) (num : object) :
  in_range index num = inr true ->
  0 <= index /\ exists n, num = PyInt n /\ index < n.
Proof.
  unfold in_range. destruct (Z.leb_spec 0 index); [|discriminate].
  destruct num as [n| |]; try discriminate.
  destruct (Z.ltb_spec index n); [|discriminate]. eauto.
Qed.

Lemma getitem_in_range {A} (l : list A) (i : Z) :
  0 <= i < len l -> getitem l i = nth_error l (Z.to_nat i).
Proof.
  intros H. unfold getitem.
  destruct (Z.leb_spec 0 i), (Z.ltb_spec i (len l)); try lia. reflexivity.
Qed.

Lemma getitem_Some_in_range {A} (l : list A) (i : Z) (x : A) :
  0 <= i -> getitem l i = Some x -> i < len l /\ nth_error l (Z.to_nat i) = Some x.
Proof.
  intros Hi. unfold getitem.
  destruct (Z.leb_spec 0 i), (Z.ltb_spec i (len l)); try lia; simpl.
  - auto.
  - destruct (Z.leb_spec (- len l) i), (Z.ltb_spec i 0); simpl;
      try discriminate; lia.
Qed.

Lemma setitem_in_range {A} (l : list A) (i : Z) (x : A) :
  0 <= i < len l ->
  setitem l i x
  = Some (firstn (Z.to_nat i) l ++ x :: skipn (S (Z.to_nat i)) l).
Proof.
  intros H. unfold setitem.
  destruct (Z.ltb_spec i 0); [lia|].
  destruct (Z.leb_spec 0 i), (Z.ltb_spec i (len l)); try lia. reflexivity.
Qed.

Lemma nth_error_update {A} (l : list A) (p j : nat) (x : A) :
  (p < length l)%nat ->
  nth_error (firstn p l ++ x :: skipn (S p) l) j
  = if Nat.eqb j p then Some x else nth_error l j.
Proof.
  revert l j. induction p as [|p IH]; intros [|a l] j Hp; simpl in Hp; try lia.
  - destruct j; reflexivity.
  - destruct j as [|j]; [reflexivity|].
    change (nth_error (firstn p l ++ x :: skipn (S p) l) j
            = if Nat.eqb j p then Some x else nth_error l j).
    apply IH. lia.
Qed.

Lemma length_update {A} (l : list A) (p : nat) (x : A) :
  (p < length l)%nat ->
  length (firstn p l ++ x :: skipn (S p) l) = length l.
Proof.
  intros Hp. rewrite length_app, length_firstn. cbn [length].
  rewrite length_skipn. lia.
Qed.

(** What the items a dataset has cached are: the records as [load]
    reads them, in a cache as long as the dataset. *)
Definition coherent (self0 self : t) : Prop :=
  _env self = _env self0 /\
  _in_memory self = _in_memory self0 /\
  _num_examples self = _num_examples self0 /\
  (_in_memory self0 = true ->
   exists n, _num_examples self0 = PyInt n /\ length (_cache self) = Z.to_nat n) /\
  forall i item,
    nth_error (_cache self) i = Some (Some item) ->
    load (_env self0) (Z.of_nat i) = inr item.

Lemma getitem_coherent (self0 self : t) (index : Z) :
  coherent self0 self -> coherent self0 (snd (__getitem__ self index)).
Proof.
  intros (Henv & Hmem & Hnum & Hlen & Hitems).
  assert (Hsame : coherent self0 self) by (repeat split; assumption).
  unfold __getitem__.
  destruct (in_range index (_num_examples self)) as [e|[|]] eqn:Hrange;
    try exact Hsame.
  apply in_range_true in Hrange as (Hindex & n & Hn & Hlt).
  destruct (_in_memory self) eqn:Hm.
  - destruct (getitem (_cache self) index) as [[item|]|] eqn:Hget;
      try exact Hsame.
    destruct (load (_env self) index) as [e|item] eqn:Hload; try exact Hsame.
    apply getitem_Some_in_range in Hget as [Hin Hnth]; [|exact Hindex].
    rewrite setitem_in_range by lia.
    assert (Hp : (Z.to_nat index < length (_cache self))%nat)
      by (unfold len in Hin; lia).
    unfold coherent. cbn [snd _env _in_memory _num_examples _cache].
    repeat split; try assumption.
    + intros Hm0. destruct (Hlen Hm0) as (n0 & Hn0 & Hl).
      exists n0. split; [exact Hn0|]. now rewrite length_update.
    + intros i it. rewrite nth_error_update by exact Hp.
      destruct (Nat.eqb_spec i (Z.to_nat index)) as [->|Hne].
      * intros [= <-]. rewrite Z2Nat.id by exact Hindex.
        now rewrite <- Henv.
      * apply Hitems.
  - simpl. destruct (load (_env self) index); exact Hsame.
Qed.

Lemma reachable_coherent (self0 self : t) :
  (forall i item, nth_error (_cache self0) i = Some (Some item) -> False) ->
  (_in_memory self0 = true ->
   exists n, _num_examples self0 = PyInt n /\ length (_cache self0) = Z.to_nat n) ->
  reachable self0 self -> coherent self0 self.
Proof.
  intros Hnone Hlen Hreach. induction Hreach as [|self index Hreach IH].
  - repeat split; try assumption. intros i item H. now apply Hnone in H.
  - now apply getitem_coherent.
Qed.

Section WithLibraries.
Variable path_exists : list ascii -> bool.
Variable lmdb_open : list ascii -> error + (list ascii -> error + object).

Lemma init_fields (data_file : list ascii) (in_memory : bool) (self0 : t) :
  __init__ path_exists lmdb_open data_file in_memory = inr self0 ->
  exists env num cache,
    lmdb_open data_file = inr env /\
    env num_examples_key = inr num /\
    (if in_memory then none_times num else inr []) = inr cache /\
    self0 = {| _env := env; _in_memory := in_memory;
               _num_examples := num; _cache := cache |}.
Proof.
  unfold __init__. destruct (path_exists data_file); simpl; [|discriminate].
  destruct (lmdb_open data_file) as [e|env] eqn:Ho; simpl; [discriminate|].
  destruct (env num_examples_key) as [e|num] eqn:Hn; simpl; [discriminate|].
  destruct (if in_memory then none_times num else inr []) as [e|cache] eqn:Hc;
    simpl; [discriminate|].
  intros [= <-]. exists env, num, cache. auto.
Qed.

Lemma init_coherent (data_file : list ascii) (in_memory : bool) (self0 self : t) :
  __init__ path_exists lmdb_open data_file in_memory = inr self0 ->
  reachable self0 self -> coherent self0 self.
Proof.
  intros Hinit. apply init_fields in Hinit as (env & num & cache & _ & _ & Hc & ->).
  apply reachable_coherent; simpl.
  - intros i item Hnth. destruct in_memory.
    + destruct num as [n| |]; try discriminate. injection Hc as <-.
      apply nth_error_In, repeat_spec in Hnth. discriminate.
    + injection Hc as <-. now destruct i.
  - intros ->. destruct num as [n| |]; try discriminate. injection Hc as <-.
    exists n. split; [reflexivity|]. apply repeat_length.
Qed.

(** The cache is transparent. Of two datasets on the same database,
    one made with [in_memory] and one without, the first returns for
    every index, however many items have been read from it before,
    what the second returns: the same item or the same exception.
    Items are not modified between the reads. *)
Theorem cache_is_transparent (data_file : list ascii) (cached plain self : t)
        (index : Z) :
  __init__ path_exists lmdb_open data_file true = inr cached ->
  __init__ path_exists lmdb_open data_file false = inr plain ->
  reachable cached self ->
  fst (__getitem__ self index) = fst (__getitem__ plain index).
Proof.
  intros Hcached Hplain Hreach.
  pose proof (init_coherent _ _ _ _ Hcached Hreach)
    as (Henv & Hmem & Hnum & Hlen & Hitems).
  apply init_fields in Hcached as (env & num & cache & Hopen & Hread & Hc & ->).
  apply init_fields in Hplain as (env' & num' & cache' & Hopen' & Hread' & _ & ->).
  rewrite Hopen in Hopen'. injection Hopen' as <-.
  rewrite Hread in Hread'. injection Hread' as <-.
  simpl in *. unfold __getitem__. rewrite Hnum, Hmem, Henv. simpl.
  destruct (in_range index num) as [e|[|]] eqn:Hrange; try reflexivity.
  apply in_range_true in Hrange as (Hindex & n & -> & Hlt).
  destruct (Hlen eq_refl) as (n0 & [= <-] & Hl).
  assert (Hin : 0 <= index < len (_cache self)) by (unfold len; lia).
  rewrite (getitem_in_range _ _ Hin).
  destruct (nth_error (_cache self) (Z.to_nat index)) as [[item|]|] eqn:Hnth.
  - apply Hitems in Hnth. rewrite Z2Nat.id in Hnth by exact Hindex.
    now rewrite Hnth.
  - destruct (load env index) as [e|item]; [reflexivity|].
    now rewrite (setitem_in_range _ _ _ Hin).
  - apply nth_error_None in Hnth. unfold len in Hin. lia.
Qed.

(** Every item a dataset returns has an ['id']. The item is the
    record stored under the decimal index: as it is when it has an
    ['id'] of its own, and otherwise, for a dict, with the decimal
    index added as its last entry, under ['id']. This holds of a
    dataset made either way, whatever has been read from it before. *)
Theorem returned_items_carry_id (data_file : list ascii) (in_memory : bool)
        (self0 self : t) (index : Z) (item : object) :
  __init__ path_exists lmdb_open data_file in_memory = inr self0 ->
  reachable self0 self ->
  fst (__getitem__ self index) = inr item ->
  contains_id item = inr true /\
  exists stored,
    _env self0 (str index) = inr stored /\
    (contains_id stored = inr true -> item = stored) /\
    (forall d, stored = PyDict d -> dict_contains d id_key = false ->
               item = PyDict (d ++ [(id_key, PyStr (str index))])).
Proof.
  intros Hinit Hreach.
  pose proof (init_coherent _ _ _ _ Hinit Hreach)
    as (Henv & Hmem & Hnum & Hlen & Hitems).
  assert (Hload : forall index item, load (_env self0) index = inr item ->
            contains_id item = inr true /\
            exists stored,
              _env self0 (str index) = inr stored /\
              (contains_id stored = inr true -> item = stored) /\
              (forall d, stored = PyDict d -> dict_contains d id_key = false ->
                         item = PyDict (d ++ [(id_key, PyStr (str index))]))).
  { clear. intros index item. unfold load.
    destruct (_env self0 (str index)) as [e|stored]; simpl; [discriminate|].
    destruct (contains_id stored) as [e|[|]] eqn:Hid; simpl; [discriminate| |].
    - intros [= <-]. split; [exact Hid|]. exists stored.
      split; [reflexivity|]. split; [reflexivity|].
      intros d -> Hd. simpl in Hid. congruence.
    - destruct stored as [n|s|d]; simpl; try discriminate.
      simpl in Hid. injection Hid as Hid.
      rewrite (dict_setitem_new _ _ _ Hid). intros [= <-].
      split; [simpl; now rewrite dict_contains_last|].
      exists (PyDict d). split; [reflexivity|]. split.
      + simpl. congruence.
      + now intros d' [= <-] _. }
  unfold __getitem__. rewrite Henv.
  destruct (in_range index (_num_examples self)) as [e|[|]] eqn:Hrange;
    try discriminate.
  apply in_range_true in Hrange as (Hindex & n & Hn & Hlt).
  destruct (_in_memory self).
  - destruct (getitem (_cache self) index) as [[it|]|] eqn:Hget;
      try discriminate.
    + simpl. intros [= <-].
      apply getitem_Some_in_range in Hget as [_ Hnth]; [|exact Hindex].
      apply Hitems in Hnth. rewrite Z2Nat.id in Hnth by exact Hindex.
      now apply Hload.
    + destruct (load (_env self0) index) as [e|it] eqn:Hl; [discriminate|].
      destruct (setitem (_cache self) index (Some it)); [|discriminate].
      simpl. intros [= <-]. now apply Hload.
  - simpl. destruct (load (_env self0) index) as [e|it] eqn:Hl; [discriminate|].
    simpl. intros [= <-]. now apply Hload.
Qed.

End WithLibraries.

Lemma cache_is_transparent_witness :
  fst (__getitem__ (snd (__getitem__ cached_two_records 0)) 0)
  = fst (__getitem__ plain_two_records 0) /\
  fst (__getitem__ plain_two_records 0)
  = inr (PyDict [(["p"]%char, PyStr ["M"; "K"]%char);
                 (id_key, PyStr ["0"]%char)]).
Proof.
  split; [|reflexivity].
  apply (cache_is_transparent every_path open_two_records []
           cached_two_records plain_two_records
           (snd (__getitem__ cached_two_records 0)) 0).
  - reflexivity.
  - reflexivity.
  - apply reach_getitem, reach_init.
Defined.

Lemma returned_items_carry_id_witness :
  contains_id (PyDict [(["p"]%char, PyStr ["M"; "K"]%char);
                       (id_key, PyStr ["0"]%char)]) = inr true /\
  exists stored,
    two_records (str 0) = inr stored /\
    (contains_id stored = inr true ->
     PyDict [(["p"]%char, PyStr ["M"; "K"]%char); (id_key, PyStr ["0"]%char)]
     = stored) /\
    (forall d, stored = PyDict d -> dict_contains d id_key = false ->
               PyDict [(["p"]%char, PyStr ["M"; "K"]%char);
                       (id_key, PyStr ["0"]%char)]
               = PyDict (d ++ [(id_key, PyStr (str 0))])).
Proof.
  apply (returned_items_carry_id every_path open_two_records [] true
           cached_two_records cached_two_records 0).
  - reflexivity.
  - apply reach_init.
  - reflexivity.
Defined.

(** Once an item has been read from a dataset made with [in_memory],
    it is served from the cache: the same index gives the same item
    again without a look at the database, whatever it holds by then,
    and without a change to the dataset. *)
Theorem second_read_skips_database (self self' : t) (index : Z) (item : object)
        (env' : list ascii -> error + object) :
  _in_memory self = true ->
  __getitem__ self index = (inr item, self') ->
  __getitem__ {| _env := env'; _in_memory := _in_memory self';
                 _num_examples := _num_examples self'; _cache := _cache self' |}
              index
  = (inr item,
     {| _env := env'; _in_memory := _in_memory self';
        _num_examples := _num_examples self'; _cache := _cache self' |}).
Proof.
  intros Hm. unfold __getitem__ at 1. rewrite Hm.
  destruct (in_range index (_num_examples self)) as [e|[|]] eqn:Hrange;
    try discriminate.
  pose proof (in_range_true _ _ Hrange) as (Hindex & n & Hn & Hlt).
  destruct (getitem (_cache self) index) as [[it|]|] eqn:Hget; try discriminate.
  - intros [= <- <-]. unfold __getitem__.
    cbn [_env _in_memory _num_examples _cache]. now rewrite Hrange, Hm, Hget.
  - destruct (load (_env self) index) as [e|it]; [discriminate|].
    apply getitem_Some_in_range in Hget as [Hin _]; [|exact Hindex].
    rewrite setitem_in_range by lia.
    assert (Hp : (Z.to_nat index < length (_cache self))%nat)
      by (unfold len in Hin; lia).
    pose proof (length_update (_cache self) (Z.to_nat index) (Some it) Hp) as Hl.
    pose proof (nth_error_update (_cache self) (Z.to_nat index) (Z.to_nat index)
                                 (Some it) Hp) as Hnth.
    rewrite Nat.eqb_refl in Hnth.
    set (cache := firstn _ _ ++ _ :: skipn _ _) in *. clearbody cache.
    intros [= <- <-].
    unfold __getitem__. cbn [_env _in_memory _num_examples _cache].
    rewrite Hrange.
    rewrite getitem_in_range by (unfold len in *; lia).
    now rewrite Hnth.
Qed.

Lemma second_read_skips_database_witness :
  __getitem__
    {| _env := empty_database;
       _in_memory := _in_memory (snd (__getitem__ cached_two_records 1));
       _num_examples := _num_examples (snd (__getitem__ cached_two_records 1));
       _cache := _cache (snd (__getitem__ cached_two_records 1)) |}
    1
  = (inr (PyDict [(id_key, PyStr ["x"]%char); (["p"]%char, PyStr ["V"]%char)]),
     {| _env := empty_database;
        _in_memory := _in_memory (snd (__getitem__ cached_two_records 1));
        _num_examples := _num_examples (snd (__getitem__ cached_two_records 1));
        _cache := _cache (snd (__getitem__ cached_two_records 1)) |}).
Proof.
  apply (second_read_skips_database cached_two_records
           (snd (__getitem__ cached_two_records 1)) 1
           (PyDict [(id_key, PyStr ["x"]%char); (["p"]%char, PyStr ["V"]%char)])
           empty_database).
  - reflexivity.
  - reflexivity.
Defined.

End LMDBDatasetFacts.
